(** * openai_helper.context: the context provider

    A shallow embedding of [src/openai_helper/context.py] (class
    [ContextProvider]) together with the part of the Python runtime it
    relies on: text strings, the permissive UTF-8 text reader, [pathlib]
    paths and a directory tree.  The regular-expression engine and the
    tokenizer are external capabilities and are kept abstract. *)

From Stdlib Require Import List ZArith NArith Lia Bool.
From Stdlib.Strings Require Import String Ascii Byte.
Import ListNotations.
Local Open Scope Z_scope.

(** ** Python text strings *)

(** A Python [str] is a sequence of Unicode code points. *)
Definition pystr := list N.

Definition py (s : string) : pystr := map N_of_ascii (list_ascii_of_string s).

(** Truth value of a string: [not s] holds exactly for the empty one. *)
Definition truthy (s : pystr) : bool :=
  match s with [] => false | _ :: _ => true end.

Fixpoint pystr_eqb (a b : pystr) : bool :=
  match a, b with
  | [], [] => true
  | x :: a', y :: b' => N.eqb x y && pystr_eqb a' b'
  | _, _ => false
  end.

(** [s.startswith(prefix)] *)
Fixpoint startswith (s prefix : pystr) : bool :=
  match prefix, s with
  | [], _ => true
  | c :: prefix', d :: s' => N.eqb c d && startswith s' prefix'
  | _ :: _, [] => false
  end.

(** [str.isspace] on one code point: the characters [str.strip()] removes. *)
Definition is_space (c : N) : bool :=
  ((0x09 <=? c) && (c <=? 0x0D) || (0x1C <=? c) && (c <=? 0x20)
   || (c =? 0x85) || (c =? 0xA0) || (c =? 0x1680)
   || (0x2000 <=? c) && (c <=? 0x200A)
   || (c =? 0x2028) || (c =? 0x2029) || (c =? 0x202F)
   || (c =? 0x205F) || (c =? 0x3000))%N.

Fixpoint lstrip (s : pystr) : pystr :=
  match s with
  | [] => []
  | c :: s' => if is_space c then lstrip s' else s
  end.

Definition rstrip (s : pystr) : pystr := rev (lstrip (rev s)).

(** [s.strip()] *)
Definition strip (s : pystr) : pystr := rstrip (lstrip s).

(** [sep.join(items)] *)
Fixpoint join (sep : pystr) (items : list pystr) : pystr :=
  match items with
  | [] => []
  | [x] => x
  | x :: rest => x ++ sep ++ join sep rest
  end.

(** ** Reading a file as text: [open(path, 'r', encoding='utf-8', errors='ignore')] *)

Module Utf8.

Definition is_cont (b : N) : bool := ((0x80 <=? b) && (b <=? 0xBF))%N.

(** Range allowed for the second byte after lead byte [b1] of a three- or
    four-byte sequence (overlong forms, surrogates and code points above
    U+10FFFF are not UTF-8). *)
Definition second_ok (b1 b2 : N) : bool :=
  (if b1 =? 0xE0 then (0xA0 <=? b2) && (b2 <=? 0xBF)
   else if b1 =? 0xED then (0x80 <=? b2) && (b2 <=? 0x9F)
   else if b1 =? 0xF0 then (0x90 <=? b2) && (b2 <=? 0xBF)
   else if b1 =? 0xF4 then (0x80 <=? b2) && (b2 <=? 0x8F)
   else is_cont b2)%N.

(** The decoder with the [ignore] error handler.  A well-formed sequence
    gives its code point; otherwise the offending lead byte is dropped and
    decoding resumes at the next byte.  (CPython drops the maximal
    ill-formed prefix at once; the bytes after the lead are continuation
    bytes, which are never valid lead bytes, so both drop the same bytes.)
    The function is total: with [errors='ignore'] no input raises
    [UnicodeDecodeError]. *)
Fixpoint decode_ignore (bs : list N) : pystr :=
  match bs with
  | [] => []
  | b1 :: r1 =>
    (if b1 <? 0x80 then b1 :: decode_ignore r1
     else if (0xC2 <=? b1) && (b1 <=? 0xDF) then
       match r1 with
       | b2 :: r2 =>
         if is_cont b2
         then ((b1 - 0xC0) * 0x40 + (b2 - 0x80)) :: decode_ignore r2
         else decode_ignore r1
       | _ => decode_ignore r1
       end
     else if (0xE0 <=? b1) && (b1 <=? 0xEF) then
       match r1 with
       | b2 :: b3 :: r3 =>
         if second_ok b1 b2 && is_cont b3
         then ((b1 - 0xE0) * 0x1000 + (b2 - 0x80) * 0x40 + (b3 - 0x80))
                :: decode_ignore r3
         else decode_ignore r1
       | _ => decode_ignore r1
       end
     else if (0xF0 <=? b1) && (b1 <=? 0xF4) then
       match r1 with
       | b2 :: b3 :: b4 :: r4 =>
         if second_ok b1 b2 && is_cont b3 && is_cont b4
         then ((b1 - 0xF0) * 0x40000 + (b2 - 0x80) * 0x1000
               + (b3 - 0x80) * 0x40 + (b4 - 0x80)) :: decode_ignore r4
         else decode_ignore r1
       | _ => decode_ignore r1
       end
     else decode_ignore r1)%N
  end.

(** Universal newlines (the default [newline=None] of [open]): ["\r\n"]
    and a lone ["\r"] are read as ["\n"]. *)
Fixpoint universal_newlines (s : pystr) : pystr :=
  match s with
  | [] => []
  | c :: r =>
    if (c =? 0x0D)%N then
      0x0A%N :: match r with
                | d :: r' =>
                  if (d =? 0x0A)%N then universal_newlines r'
                  else universal_newlines r
                | [] => []
                end
    else c :: universal_newlines r
  end.

(** The whole text a reader opened this way delivers for a file whose
    bytes are [bs]. *)
Definition read_text (bs : list byte) : pystr :=
  universal_newlines (decode_ignore (map Byte.to_N bs)).

End Utf8.

(** Successive [file.read(size)] calls return consecutive pieces of the
    text: [size] characters each (the last one may be shorter), the whole
    remaining text when [size] is negative, and the empty string at the
    end of the file or when [size] is zero. *)
Definition file_read (size : Z) (rest : pystr) : pystr * pystr :=
  if size <? 0 then (rest, [])
  else (firstn (Z.to_nat size) rest, skipn (Z.to_nat size) rest).

(** The sizes [file.read] accepts.  For a size outside this range the
    first [file.read(chunk_size)] raises [OverflowError], which nothing
    in the provider handles: the call ends there.  [file_read] describes
    the reads that succeed, so the statements below that say how a run
    ends are made for sizes in this range.  (That the machine can hold a
    chunk of the size asked for is assumed, like the absence of
    operating-system errors.) *)
Definition read_size_ok (size : Z) : Prop := - 2 ^ 63 <= size < 2 ^ 63.

(** The non-empty chunks that the loop
    [while True: chunk = file.read(chunk_size); if not chunk: break]
    sees, in order.  Every read that does not end the loop consumes at
    least one character, so [length text] rounds are enough. *)
Fixpoint read_chunks_fuel (fuel : nat) (size : Z) (rest : pystr) : list pystr :=
  match fuel with
  | O => []
  | S fuel' =>
    let (chunk, rest') := file_read size rest in
    if truthy chunk then chunk :: read_chunks_fuel fuel' size rest' else []
  end.

Definition read_chunks (size : Z) (text : pystr) : list pystr :=
  read_chunks_fuel (List.length text) size text.

(** ** [pathlib] paths *)

Record Path := mkPath {
  absolute : bool;          (* anchored at the root ["/"] *)
  parts : list pystr        (* the components below the anchor *)
}.

(** [parent / name], for a [name] as a directory listing returns it. *)
Definition child (parent : Path) (name : pystr) : Path :=
  mkPath (absolute parent) (parts parent ++ [name]).

(** [path.name]: the final component. *)
Definition name (p : Path) : pystr := last (parts p) [].

(** [str(path)] *)
Definition str (p : Path) : pystr :=
  if absolute p then py "/" ++ join (py "/") (parts p)
  else match parts p with
       | [] => py "."
       | _ => join (py "/") (parts p)
       end.

Fixpoint strip_prefix (pre l : list pystr) : option (list pystr) :=
  match pre, l with
  | [], _ => Some l
  | a :: pre', b :: l' => if pystr_eqb a b then strip_prefix pre' l' else None
  | _ :: _, [] => None
  end.

(** [path.relative_to(other)]; [None] stands for the [ValueError] raised
    when [path] does not lie under [other]. *)
Definition relative_to (p other : Path) : option Path :=
  if Bool.eqb (absolute p) (absolute other) then
    match strip_prefix (parts other) (parts p) with
    | Some rest => Some (mkPath false rest)
    | None => None
    end
  else None.

(** ** The directory tree *)

(** What [iterdir] finds in a directory, in listing order: regular files
    ([is_file()]), directories ([is_dir()]) with their own listing, and
    entries that are neither (sockets, dangling links, ...). *)
Unset Elimination Schemes.
Inductive entry :=
| RegFile (n : pystr)
| Directory (n : pystr) (children : list entry)
| Special (n : pystr).
Set Elimination Schemes.

(** The file system as the scan sees it: the tree below each directory
    that may be given as [top], and the bytes stored in each file.
    Operating-system errors (a directory that cannot be listed, a file
    that cannot be opened) are outside the model: the source does not
    handle them, and any of them would end the call with that error. *)
Record filesystem := mkFS {
  tree_at : Path -> list entry;
  bytes_at : Path -> list byte
}.

Inductive exn :=
| UnicodeDecodeError
| ValueError
| ReError.

(** ** What a run of a generator does *)

(** [(token count, path, content)], the tuples [iter_files] yields. *)
Definition FileRecord : Type := Z * Path * pystr.

Definition rec_tokens (r : FileRecord) : Z := fst (fst r).
Definition rec_path (r : FileRecord) : Path := snd (fst r).
Definition rec_content (r : FileRecord) : pystr := snd r.

(** The observable steps of [iter_files], in order: a file is opened for
    reading, a record is yielded, an error is logged for a path.  A run
    is what the generator does when its consumer pulls it to the end, as
    [sum] and [join] do. *)
Inductive event :=
| Opened (p : Path)
| Yielded (r : FileRecord)
| LoggedError (p : Path).

(** How the generator ends: it returns (is exhausted) or an exception
    leaves it. *)
Inductive outcome :=
| Returned
| Raised (e : exn).

Definition records (evs : list event) : list FileRecord :=
  flat_map (fun e => match e with Yielded r => [r] | _ => [] end) evs.

Definition opened (evs : list event) : list Path :=
  flat_map (fun e => match e with Opened p => [p] | _ => [] end) evs.

Definition logged (evs : list event) : list Path :=
  flat_map (fun e => match e with LoggedError p => [p] | _ => [] end) evs.

Definition sum_tokens (rs : list FileRecord) : Z :=
  fold_right Z.add 0 (map rec_tokens rs).

Definition default_chunk_size : Z := 1024.
Definition default_token_limit : Z := 10000.

(** ** class ContextProvider *)

Section ContextProvider.

(** [re]: compiled patterns, [re.compile] ([None] when the pattern is
    rejected) and [Pattern.search], which looks for a match anywhere in
    the string. *)
Variable Pattern : Type.
Variable re_compile : pystr -> option Pattern.
Variable re_search : Pattern -> pystr -> bool.

(** [tiktoken]: [encoding.encode(text, disallowed_special=())]. *)
Variable encode : pystr -> list nat.

Record ContextProvider := mkProvider {
  directory : Path;
  regex_whitelist : option Pattern;
  regex_blacklist : option Pattern;
  allow_hidden : bool;
  recursive : bool;
  allow_hidden_subdirectories : bool;
  regex_path_whitelist : option Pattern;
  regex_path_blacklist : option Pattern;
  skip_unreadable : bool;
  skip_empty : bool
}.

(** [re.compile(regex) if regex else None] *)
Definition compile_if_set (regex : option pystr) : exn + option Pattern :=
  match regex with
  | Some r =>
    if truthy r then
      match re_compile r with
      | Some p => inr (Some p)
      | None => inl ReError
      end
    else inr None
  | None => inr None
  end.

Definition init (directory : Path)
    (regex_whitelist regex_blacklist : option pystr)
    (allow_hidden recursive allow_hidden_subdirectories : bool)
    (regex_path_whitelist regex_path_blacklist : option pystr)
    (skip_unreadable skip_empty : bool) : exn + ContextProvider :=
  match compile_if_set regex_whitelist with
  | inl e => inl e
  | inr wl =>
  match compile_if_set regex_blacklist with
  | inl e => inl e
  | inr bl =>
  match compile_if_set regex_path_whitelist with
  | inl e => inl e
  | inr pwl =>
  match compile_if_set regex_path_blacklist with
  | inl e => inl e
  | inr pbl =>
    inr (mkProvider directory wl bl allow_hidden recursive
           allow_hidden_subdirectories pwl pbl skip_unreadable skip_empty)
  end end end end.

(** [self.regex and self.regex.search(s)] *)
Definition set_and_found (regex : option Pattern) (s : pystr) : bool :=
  match regex with
  | Some r => re_search r s
  | None => false
  end.

(** [self.regex and not self.regex.search(s)] *)
Definition set_and_missing (regex : option Pattern) (s : pystr) : bool :=
  match regex with
  | Some r => negb (re_search r s)
  | None => false
  end.

Definition _file_matches (self : ContextProvider) (path : Path) : bool :=
  if negb (allow_hidden self) && startswith (name path) (py ".") then false
  else if set_and_missing (regex_whitelist self) (name path) then false
  else if set_and_found (regex_blacklist self) (name path) then false
  else if set_and_missing (regex_path_whitelist self) (str path) then false
  else if set_and_found (regex_path_blacklist self) (str path) then false
  else true.

(** One round of [for path in top.iterdir()], for the entry [e] found in
    directory [top]. *)
Fixpoint visit (self : ContextProvider) (top : Path) (e : entry) : list Path :=
  match e with
  | RegFile n =>
    let path := child top n in
    if _file_matches self path then [path] else []
  | Directory n children =>
    let path := child top n in
    if recursive self then
      if allow_hidden_subdirectories self || negb (startswith (name path) (py "."))
      then flat_map (visit self path) children
      else []
    else []
  | Special _ => []
  end.

(** The paths [iter_file_paths(top)] yields when the listing of [top] is
    [listing]. *)
Definition walk (self : ContextProvider) (top : Path) (listing : list entry)
  : list Path :=
  flat_map (visit self top) listing.

(** [top or self.directory] *)
Definition top_or_directory (self : ContextProvider) (top : option Path) : Path :=
  match top with
  | Some t => t
  | None => directory self
  end.

Definition iter_file_paths (self : ContextProvider) (fs : filesystem)
    (top : option Path) : list Path :=
  let top := top_or_directory self top in
  walk self top (tree_at fs top).

(** [len(encoding.encode(chunk, disallowed_special=()))] *)
Definition count_tokens (chunk : pystr) : Z :=
  Z.of_nat (List.length (encode chunk)).

(** The text read from [path], or the exception the reader raises.  The
    file is opened with [errors='ignore'], so the reader always delivers
    a text. *)
Definition open_text (fs : filesystem) (path : Path) : exn + pystr :=
  inr (Utf8.read_text (bytes_at fs path)).

(** How the [while True] loop over one file ends. *)
Inductive loop_exit :=
| Exceeded (total_tokens : Z) (file_content : pystr)
| EndOfFile (file_content : pystr) (file_tokens total_tokens : Z).

(** The [while True] loop, over the chunks still to be read. *)
Fixpoint read_loop (token_limit : Z) (chunks : list pystr)
    (file_content : pystr) (file_tokens total_tokens : Z) : loop_exit :=
  match chunks with
  | [] => EndOfFile file_content file_tokens total_tokens
  | chunk :: chunks' =>
    let chunk := strip chunk in
    let file_content := file_content ++ chunk in
    let chunk_tokens := count_tokens chunk in
    let file_tokens := file_tokens + chunk_tokens in
    let total_tokens := total_tokens + chunk_tokens in
    if token_limit <? total_tokens
    then Exceeded total_tokens file_content
    else read_loop token_limit chunks' file_content file_tokens total_tokens
  end.

(** The [for path in self.iter_file_paths(top)] loop, over the paths
    still to come, with the running [total_tokens]. *)
Fixpoint iter_files_loop (self : ContextProvider) (fs : filesystem)
    (chunk_size token_limit : Z) (paths : list Path) (total_tokens : Z)
  : list event * outcome :=
  match paths with
  | [] => ([], Returned)
  | path :: paths' =>
    match open_text fs path with
    | inr text =>
      match read_loop token_limit (read_chunks chunk_size text) [] 0 total_tokens with
      | Exceeded total_tokens file_content =>
        ([Opened path; Yielded (total_tokens, path, file_content)], Returned)
      | EndOfFile file_content file_tokens total_tokens =>
        let yielded :=
          if 0 <? file_tokens
          then [Yielded (file_tokens, path, file_content)] else [] in
        let (evs, out) :=
          if skip_empty self && negb (truthy file_content)
          then iter_files_loop self fs chunk_size token_limit paths' total_tokens
          else iter_files_loop self fs chunk_size token_limit paths' total_tokens in
        (Opened path :: yielded ++ evs, out)
      end
    | inl UnicodeDecodeError =>
      let (evs, out) :=
        if skip_unreadable self
        then iter_files_loop self fs chunk_size token_limit paths' total_tokens
        else ([], Raised UnicodeDecodeError) in
      (Opened path :: LoggedError path :: evs, out)
    | inl e => ([Opened path], Raised e)
    end
  end.

Definition iter_files (self : ContextProvider) (fs : filesystem)
    (top : option Path) (chunk_size token_limit : Z) : list event * outcome :=
  iter_files_loop self fs chunk_size token_limit (iter_file_paths self fs top) 0.

Definition calculate_tokens (self : ContextProvider) (fs : filesystem)
    (top : option Path) : exn + Z :=
  let (evs, out) := iter_files self fs top default_chunk_size default_token_limit in
  match out with
  | Returned => inr (sum_tokens (records evs))
  | Raised e => inl e
  end.

(** [f"// File '{path.relative_to(self.directory)}'\n{content}\n"] *)
Definition format_record (self : ContextProvider) (r : FileRecord) : exn + pystr :=
  match relative_to (rec_path r) (directory self) with
  | Some rel =>
    inr (py "// File '" ++ str rel ++ py "'" ++ [0x0A%N] ++ rec_content r ++ [0x0A%N])
  | None => inl ValueError
  end.

Fixpoint format_records (self : ContextProvider) (rs : list FileRecord)
  : exn + list pystr :=
  match rs with
  | [] => inr []
  | r :: rs' =>
    match format_record self r with
    | inl e => inl e
    | inr block =>
      match format_records self rs' with
      | inl e => inl e
      | inr blocks => inr (block :: blocks)
      end
    end
  end.

Definition get_context (self : ContextProvider) (fs : filesystem) : exn + pystr :=
  let (evs, out) := iter_files self fs None default_chunk_size default_token_limit in
  match format_records self (records evs) with
  | inl e => inl e
  | inr blocks =>
    match out with
    | Returned => inr (join [0x0A%N; 0x0A%N; 0x0A%N] blocks)
    | Raised e => inl e
    end
  end.

End ContextProvider.

Arguments mkProvider {Pattern}.
Arguments directory {Pattern}.
Arguments regex_whitelist {Pattern}.
Arguments regex_blacklist {Pattern}.
Arguments allow_hidden {Pattern}.
Arguments recursive {Pattern}.
Arguments allow_hidden_subdirectories {Pattern}.
Arguments regex_path_whitelist {Pattern}.
Arguments regex_path_blacklist {Pattern}.
Arguments skip_unreadable {Pattern}.
Arguments skip_empty {Pattern}.
Arguments compile_if_set {Pattern}.
Arguments init {Pattern}.
Arguments set_and_found {Pattern}.
Arguments set_and_missing {Pattern}.
Arguments _file_matches {Pattern}.
Arguments visit {Pattern}.
Arguments walk {Pattern}.
Arguments top_or_directory {Pattern}.
Arguments iter_file_paths {Pattern}.
Arguments iter_files_loop {Pattern}.
Arguments iter_files {Pattern}.
Arguments calculate_tokens {Pattern}.
Arguments format_record {Pattern}.
Arguments format_records {Pattern}.
Arguments get_context {Pattern}.

(** ** Vocabulary for the statements *)

Definition nl : pystr := [0x0A%N].

Definition zsum (l : list Z) : Z := fold_right Z.add 0 l.

(** The totals reached after each of the counts in turn, from [start]. *)
Fixpoint running_totals (start : Z) (counts : list Z) : list Z :=
  match counts with
  | [] => []
  | c :: counts' => (start + c) :: running_totals (start + c) counts'
  end.

(** No total in the list is above the limit. *)
Definition within (token_limit : Z) (totals : list Z) : Prop :=
  Forall (fun t => t <= token_limit) totals.

(** Induction on directory trees, with the hypothesis for every entry of a
    subdirectory's listing. *)
Fixpoint entry_ind (P : entry -> Prop)
    (HF : forall n, P (RegFile n))
    (HD : forall n children, Forall P children -> P (Directory n children))
    (HS : forall n, P (Special n))
    (e : entry) {struct e} : P e :=
  match e with
  | RegFile n => HF n
  | Directory n children =>
    HD n children
       ((fix all (l : list entry) : Forall P l :=
           match l with
           | [] => Forall_nil P
           | x :: l' => Forall_cons x (entry_ind P HF HD HS x) (all l')
           end) children)
  | Special n => HS n
  end.

(** The configuration with one flag replaced. *)
Definition with_allow_hidden {Pattern} (b : bool) (self : ContextProvider Pattern) :=
  mkProvider (directory self) (regex_whitelist self) (regex_blacklist self) b
    (recursive self) (allow_hidden_subdirectories self)
    (regex_path_whitelist self) (regex_path_blacklist self)
    (skip_unreadable self) (skip_empty self).

Definition with_skip_empty {Pattern} (b : bool) (self : ContextProvider Pattern) :=
  mkProvider (directory self) (regex_whitelist self) (regex_blacklist self)
    (allow_hidden self) (recursive self) (allow_hidden_subdirectories self)
    (regex_path_whitelist self) (regex_path_blacklist self)
    (skip_unreadable self) b.

Definition with_skip_unreadable {Pattern} (b : bool) (self : ContextProvider Pattern) :=
  mkProvider (directory self) (regex_whitelist self) (regex_blacklist self)
    (allow_hidden self) (recursive self) (allow_hidden_subdirectories self)
    (regex_path_whitelist self) (regex_path_blacklist self)
    b (skip_empty self).

(** No regular-expression filter is set. *)
Definition no_filters {Pattern} (self : ContextProvider Pattern) : Prop :=
  regex_whitelist self = None /\ regex_blacklist self = None /\
  regex_path_whitelist self = None /\ regex_path_blacklist self = None.

(** The regular files reachable under [top], in the words of the
    specification: a regular file of the listing that is not a dotfile
    (unless hidden files are allowed), or a file reachable in a
    subdirectory that the walk may enter. *)
Inductive reachable (allow_hidden recursive allow_hidden_subdirectories : bool)
  : Path -> list entry -> Path -> Prop :=
| reach_file top listing n :
    In (RegFile n) listing ->
    allow_hidden = true \/ startswith n (py ".") = false ->
    reachable allow_hidden recursive allow_hidden_subdirectories
      top listing (child top n)
| reach_dir top listing n children p :
    In (Directory n children) listing ->
    recursive = true ->
    allow_hidden_subdirectories = true \/ startswith n (py ".") = false ->
    reachable allow_hidden recursive allow_hidden_subdirectories
      (child top n) children p ->
    reachable allow_hidden recursive allow_hidden_subdirectories
      top listing p.

Section Accounting.

Variable encode : pystr -> list nat.
Variable fs : filesystem.
Variable chunk_size : Z.

(** Token counts and content of a sequence of chunks as read. *)
Definition counts_of (chunks : list pystr) : list Z :=
  map (fun chunk => count_tokens encode (strip chunk)) chunks.

Definition content_of (chunks : list pystr) : pystr :=
  List.concat (map strip chunks).

Definition file_text (p : Path) : pystr := Utf8.read_text (bytes_at fs p).

Definition file_chunks (p : Path) : list pystr :=
  read_chunks chunk_size (file_text p).

Definition file_counts (p : Path) : list Z := counts_of (file_chunks p).

Definition file_tokens (p : Path) : Z := zsum (file_counts p).

Definition file_content (p : Path) : pystr := content_of (file_chunks p).

(** What the scan does with a file it reads to the end: it opens it and
    yields its record when the file has tokens. *)
Definition whole_file (p : Path) : list event :=
  Opened p ::
  (if 0 <? file_tokens p
   then [Yielded (file_tokens p, p, file_content p)] else []).

(** The scan stops over budget: in file [p], after the chunks [done]
    that keep every running total within the limit, the next [chunk]
    takes the total [T] above it; the record [(T, p, content so far)] is
    the last thing that happens, and the files [ps2] are never opened. *)
Definition stops_over_budget (token_limit : Z) (paths : list Path)
    (run : list event * outcome) : Prop :=
  exists ps1 p ps2 done chunk todo,
    paths = ps1 ++ p :: ps2 /\
    file_chunks p = done ++ chunk :: todo /\
    within token_limit
      (running_totals 0 (flat_map file_counts ps1 ++ counts_of done)) /\
    let T := sum_tokens (records (flat_map whole_file ps1))
             + zsum (counts_of (done ++ [chunk])) in
    token_limit < T /\
    run = (flat_map whole_file ps1
             ++ [Opened p; Yielded (T, p, content_of (done ++ [chunk]))],
           Returned).

(** The scan reads every file to the end, and the tokens of the records
    it yields add up to at most [bound]. *)
Definition completes_with_total_at_most (bound : Z) (paths : list Path)
    (run : list event * outcome) : Prop :=
  run = (flat_map whole_file paths, Returned) /\
  opened (fst run) = paths /\
  sum_tokens (records (fst run)) <= bound.

End Accounting.

(** ** A test double for the runtime

    Literal substring search for [Pattern.search] and one token per
    character for the tokenizer, used to run the provider on concrete
    directories. *)

Fixpoint find_sub (pattern s : pystr) : bool :=
  startswith s pattern ||
  match s with
  | [] => false
  | _ :: s' => find_sub pattern s'
  end.

Definition char_encode (s : pystr) : list nat := map N.to_nat s.

Definition bytes_of (s : string) : list byte := list_byte_of_string s.

Definition project : Path := mkPath true [py "project"].

(** A provider over [/project] with every option at its default. *)
Definition default_provider : ContextProvider pystr :=
  mkProvider project None None false true false None None true false.

(** A file system whose directory [/project] has the given listing and
    whose files hold the bytes [data] gives for their name. *)
Definition fs_of (listing : list entry) (data : pystr -> list byte) : filesystem :=
  mkFS (fun _ => listing) (fun p => data (name p)).

(** ** Reading in chunks *)

Lemma read_chunks_fuel_nil fuel size : read_chunks_fuel fuel size [] = [].
Proof.
  destruct fuel as [|fuel]; [reflexivity|].
  simpl. unfold file_read.
  destruct (size <? 0); [reflexivity|].
  now rewrite firstn_nil.
Qed.

(** With a chunk size other than zero the loop reads the whole text:
    nothing is lost when the rounds run out. *)
Lemma read_chunks_fuel_concat fuel size rest :
  size <> 0 -> (List.length rest <= fuel)%nat ->
  List.concat (read_chunks_fuel fuel size rest) = rest.
Proof.
  intros Hsize. revert rest.
  induction fuel as [|fuel IH]; intros rest Hlen.
  - destruct rest; [reflexivity | simpl in Hlen; lia].
  - simpl. unfold file_read.
    destruct (size <? 0) eqn:Hneg.
    + destruct rest as [|c rest]; [reflexivity|].
      simpl. rewrite read_chunks_fuel_nil. simpl. now rewrite app_nil_r.
    + apply Z.ltb_ge in Hneg.
      destruct (Z.to_nat size) as [|n] eqn:Hn; [lia|].
      destruct rest as [|c rest]; [reflexivity|].
      cbn [firstn skipn truthy List.concat].
      rewrite IH.
      * cbn [app]. now rewrite firstn_skipn.
      * rewrite length_skipn. simpl in Hlen. lia.
Qed.

Lemma read_chunks_concat size text :
  size <> 0 -> List.concat (read_chunks size text) = text.
Proof.
  intros H. unfold read_chunks. now apply read_chunks_fuel_concat.
Qed.

(** A text of at most [size] characters comes as one chunk. *)
Lemma read_chunks_short size text :
  text <> [] -> Z.of_nat (List.length text) <= size ->
  read_chunks size text = [text].
Proof.
  intros Hne Hlen. unfold read_chunks.
  destruct text as [|c text]; [congruence|].
  cbn [List.length read_chunks_fuel]. unfold file_read.
  assert (Hpos : (size <? 0) = false) by (apply Z.ltb_ge; lia).
  rewrite Hpos.
  rewrite firstn_all2 by (simpl in *; lia).
  rewrite skipn_all2 by (simpl in *; lia).
  cbn [truthy]. now rewrite read_chunks_fuel_nil.
Qed.

(** A chunk size of zero reads nothing; a negative one reads the whole
    text at once. *)
Lemma read_chunks_zero text : read_chunks 0 text = [].
Proof.
  unfold read_chunks. destruct text as [|c text]; reflexivity.
Qed.

Lemma read_chunks_negative size text :
  size < 0 -> text <> [] -> read_chunks size text = [text].
Proof.
  intros Hneg Hne. unfold read_chunks.
  destruct text as [|c text]; [congruence|].
  cbn [List.length read_chunks_fuel]. unfold file_read.
  apply Z.ltb_lt in Hneg. rewrite Hneg. cbn [truthy].
  now rewrite read_chunks_fuel_nil.
Qed.

(** The reader on sample bytes: plain ASCII, a two-byte and a three-byte
    sequence, bytes that are not UTF-8 (dropped), a truncated sequence at
    the end (dropped), and line ends. *)
Example read_text_ascii : Utf8.read_text (bytes_of "hello") = py "hello".
Proof. reflexivity. Qed.

Example read_text_multibyte :
  Utf8.read_text [xc3; xa9; xe2; x82; xac] = [0xE9; 0x20AC]%N.
Proof. reflexivity. Qed.

Example read_text_drops_invalid :
  Utf8.read_text [xff; x41; xc0; x80; x42; xe2; x82] = py "AB".
Proof. reflexivity. Qed.

Example read_text_newlines :
  Utf8.read_text [x61; x0d; x0a; x62; x0d; x63] = [0x61; 0x0A; 0x62; 0x0A; 0x63]%N.
Proof. reflexivity. Qed.

Example strip_example : strip (py "  a b  ") = py "a b".
Proof. reflexivity. Qed.

(** ** Token accounting *)

Lemma zsum_app a b : zsum (a ++ b) = zsum a + zsum b.
Proof. induction a as [|x a IH]; simpl; lia. Qed.

Lemma running_totals_app start a b :
  running_totals start (a ++ b)
  = running_totals start a ++ running_totals (start + zsum a) b.
Proof.
  revert start. induction a as [|x a IH]; intros start; simpl.
  - now rewrite Z.add_0_r.
  - rewrite IH. now rewrite Z.add_assoc.
Qed.

Lemma within_app token_limit a b :
  within token_limit (a ++ b) <-> within token_limit a /\ within token_limit b.
Proof. apply Forall_app. Qed.

Section Chunks.

Variable encode : pystr -> list nat.

Lemma count_tokens_nonneg s : 0 <= count_tokens encode s.
Proof. unfold count_tokens. lia. Qed.

Lemma counts_of_nonneg chunks : 0 <= zsum (counts_of encode chunks).
Proof.
  induction chunks as [|c chunks IH]; simpl; [lia|].
  pose proof (count_tokens_nonneg (strip c)). lia.
Qed.

Lemma counts_of_app a b :
  counts_of encode (a ++ b) = counts_of encode a ++ counts_of encode b.
Proof. apply map_app. Qed.

Lemma content_of_app a b : content_of (a ++ b) = content_of a ++ content_of b.
Proof. unfold content_of. now rewrite map_app, concat_app. Qed.

(** *** The loop over the chunks of one file *)

Lemma read_loop_within token_limit chunks file_content ft total :
  within token_limit (running_totals total (counts_of encode chunks)) ->
  read_loop encode token_limit chunks file_content ft total
  = EndOfFile (file_content ++ content_of chunks)
      (ft + zsum (counts_of encode chunks))
      (total + zsum (counts_of encode chunks)).
Proof.
  revert file_content ft total.
  induction chunks as [|c chunks IH]; intros file_content ft total H.
  - simpl. now rewrite app_nil_r, !Z.add_0_r.
  - simpl in H. inversion H as [|? ? Hc Hrest]; subst.
    cbn [read_loop].
    assert (Hle : (token_limit <? total + count_tokens encode (strip c)) = false)
      by (apply Z.ltb_ge; exact Hc).
    rewrite Hle, IH by exact Hrest.
    unfold content_of. simpl. now rewrite <- app_assoc, !Z.add_assoc.
Qed.

Lemma read_loop_exceeds token_limit done chunk todo file_content ft total :
  within token_limit (running_totals total (counts_of encode done)) ->
  token_limit < total + zsum (counts_of encode (done ++ [chunk])) ->
  read_loop encode token_limit (done ++ chunk :: todo) file_content ft total
  = Exceeded (total + zsum (counts_of encode (done ++ [chunk])))
      (file_content ++ content_of (done ++ [chunk])).
Proof.
  revert file_content ft total.
  induction done as [|c done IH]; intros file_content ft total H Hover.
  - cbn [app read_loop]. simpl in Hover. rewrite Z.add_0_r in Hover.
    apply Z.ltb_lt in Hover. rewrite Hover.
    unfold content_of. simpl. now rewrite Z.add_0_r, app_nil_r.
  - simpl in H. inversion H as [|? ? Hc Hrest]; subst.
    cbn [app read_loop].
    assert (Hle : (token_limit <? total + count_tokens encode (strip c)) = false)
      by (apply Z.ltb_ge; exact Hc).
    rewrite Hle, IH.
    + unfold content_of. simpl. now rewrite <- app_assoc, !Z.add_assoc.
    + exact Hrest.
    + simpl in Hover. lia.
Qed.

(** Either every running total stays within the limit, or some chunk is
    the first to take it above. *)
Lemma chunks_cases token_limit total chunks :
  within token_limit (running_totals total (counts_of encode chunks)) \/
  exists done chunk todo,
    chunks = done ++ chunk :: todo /\
    within token_limit (running_totals total (counts_of encode done)) /\
    token_limit < total + zsum (counts_of encode (done ++ [chunk])).
Proof.
  revert total.
  induction chunks as [|c chunks IH]; intros total.
  - left. constructor.
  - destruct (Z.ltb_spec token_limit (total + count_tokens encode (strip c)))
      as [Hover|Hle].
    + right. exists [], c, chunks. repeat split.
      * constructor.
      * simpl. lia.
    + destruct (IH (total + count_tokens encode (strip c)))
        as [Hall | (done & x & todo & -> & Hdone & Hover)].
      * left. simpl. now constructor.
      * right. exists (c :: done), x, todo. repeat split.
        -- simpl. now constructor.
        -- simpl in *. lia.
Qed.

End Chunks.

Section Loop.

Context {Pattern : Type}.
Variable encode : pystr -> list nat.
Variable self : ContextProvider Pattern.
Variable fs : filesystem.
Variables chunk_size token_limit : Z.

Local Abbreviation loop := (iter_files_loop encode self fs chunk_size token_limit).
Local Abbreviation counts := (file_counts encode fs chunk_size).
Local Abbreviation tokens := (file_tokens encode fs chunk_size).
Local Abbreviation whole := (whole_file encode fs chunk_size).

Lemma file_tokens_nonneg p : 0 <= tokens p.
Proof. apply counts_of_nonneg. Qed.

Lemma zsum_flat_counts_nonneg ps : 0 <= zsum (flat_map counts ps).
Proof.
  induction ps as [|p ps IH]; simpl; [lia|].
  rewrite zsum_app. pose proof (file_tokens_nonneg p).
  unfold file_tokens in *. lia.
Qed.

(** The reader never raises (the file is opened with [errors='ignore']),
    so one round of the loop is decided by the chunk loop alone. *)
Lemma iter_files_loop_cons p ps total :
  loop (p :: ps) total
  = match read_loop encode token_limit (file_chunks fs chunk_size p) [] 0 total with
    | Exceeded total' file_content =>
      ([Opened p; Yielded (total', p, file_content)], Returned)
    | EndOfFile file_content ft total' =>
      (Opened p ::
         (if 0 <? ft then [Yielded (ft, p, file_content)] else [])
         ++ fst (loop ps total'),
       snd (loop ps total'))
    end.
Proof.
  cbn [iter_files_loop open_text].
  fold (file_text fs p). fold (file_chunks fs chunk_size p).
  destruct (read_loop encode token_limit (file_chunks fs chunk_size p) [] 0 total)
    as [total' content | content ft total']; [reflexivity|].
  destruct (skip_empty self && negb (truthy content));
    destruct (loop ps total'); reflexivity.
Qed.

(** A file read to the end within the budget. *)
Lemma iter_files_loop_whole p ps total :
  within token_limit (running_totals total (counts p)) ->
  loop (p :: ps) total
  = (whole p ++ fst (loop ps (total + tokens p)),
     snd (loop ps (total + tokens p))).
Proof.
  intros H. rewrite iter_files_loop_cons.
  unfold file_counts in H. rewrite (read_loop_within encode) by exact H.
  reflexivity.
Qed.

Lemma iter_files_loop_prefix ps1 ps total :
  within token_limit (running_totals total (flat_map counts ps1)) ->
  loop (ps1 ++ ps) total
  = (flat_map whole ps1 ++ fst (loop ps (total + zsum (flat_map counts ps1))),
     snd (loop ps (total + zsum (flat_map counts ps1)))).
Proof.
  revert total.
  induction ps1 as [|p ps1 IH]; intros total H.
  - simpl. rewrite Z.add_0_r. now destruct (loop ps total).
  - cbn [flat_map] in H. rewrite running_totals_app in H.
    apply within_app in H. destruct H as [Hp Hps].
    cbn [app]. rewrite iter_files_loop_whole by exact Hp.
    rewrite IH by exact Hps.
    cbn [flat_map fst snd]. rewrite zsum_app, <- app_assoc.
    unfold file_tokens. now rewrite !Z.add_assoc.
Qed.

(** A file in which the budget is exceeded. *)
Lemma iter_files_loop_exceeds p ps total done chunk todo :
  file_chunks fs chunk_size p = done ++ chunk :: todo ->
  within token_limit (running_totals total (counts_of encode done)) ->
  token_limit < total + zsum (counts_of encode (done ++ [chunk])) ->
  loop (p :: ps) total
  = ([Opened p;
      Yielded (total + zsum (counts_of encode (done ++ [chunk])), p,
               content_of (done ++ [chunk]))],
     Returned).
Proof.
  intros Hchunks Hdone Hover. rewrite iter_files_loop_cons, Hchunks.
  now rewrite (read_loop_exceeds encode token_limit done chunk todo) by assumption.
Qed.

(** The two ways the loop can go, from any running total. *)
Lemma iter_files_loop_cases paths total :
  (exists ps1 p ps2 done chunk todo,
      paths = ps1 ++ p :: ps2 /\
      file_chunks fs chunk_size p = done ++ chunk :: todo /\
      within token_limit
        (running_totals total (flat_map counts ps1 ++ counts_of encode done)) /\
      token_limit < total + zsum (flat_map counts ps1)
                    + zsum (counts_of encode (done ++ [chunk])) /\
      loop paths total
      = (flat_map whole ps1
           ++ [Opened p;
               Yielded (total + zsum (flat_map counts ps1)
                        + zsum (counts_of encode (done ++ [chunk])), p,
                        content_of (done ++ [chunk]))],
         Returned))
  \/
  (within token_limit (running_totals total (flat_map counts paths)) /\
   loop paths total = (flat_map whole paths, Returned)).
Proof.
  revert total.
  induction paths as [|p ps IH]; intros total.
  - right. split; [constructor | reflexivity].
  - destruct (chunks_cases encode token_limit total (file_chunks fs chunk_size p))
      as [Hp | (done & chunk & todo & Hchunks & Hdone & Hover)].
    + destruct (IH (total + tokens p))
        as [(ps1 & q & ps2 & done & chunk & todo & -> & Hchunks & Hin & Hover & Hrun)
           | [Hin Hrun]].
      * left. exists (p :: ps1), q, ps2, done, chunk, todo.
        split; [reflexivity|]. split; [exact Hchunks|].
        cbn [flat_map]. rewrite <- app_assoc, running_totals_app, zsum_app.
        split; [apply within_app; split; assumption|].
        unfold file_tokens in *.
        split; [lia|].
        rewrite iter_files_loop_whole by exact Hp.
        unfold file_tokens. rewrite Hrun. cbn [fst snd].
        now rewrite <- app_assoc, !Z.add_assoc.
      * right. cbn [flat_map]. rewrite running_totals_app.
        split; [apply within_app; split; assumption|].
        rewrite iter_files_loop_whole by exact Hp.
        now rewrite Hrun.
    + left. exists [], p, ps, done, chunk, todo.
      split; [reflexivity|]. split; [exact Hchunks|].
      cbn [flat_map app zsum fold_right]. rewrite Z.add_0_r.
      split; [exact Hdone|]. split; [exact Hover|].
      now apply (iter_files_loop_exceeds p ps total done chunk todo).
Qed.

(** *** What the events of whole files amount to *)

Lemma records_app a b : records (a ++ b) = records a ++ records b.
Proof. apply flat_map_app. Qed.

Lemma opened_app a b : opened (a ++ b) = opened a ++ opened b.
Proof. apply flat_map_app. Qed.

Lemma logged_app a b : logged (a ++ b) = logged a ++ logged b.
Proof. apply flat_map_app. Qed.

Lemma sum_tokens_app a b : sum_tokens (a ++ b) = sum_tokens a + sum_tokens b.
Proof. unfold sum_tokens. rewrite map_app. apply zsum_app. Qed.

Lemma opened_whole ps : opened (flat_map whole ps) = ps.
Proof.
  induction ps as [|p ps IH]; [reflexivity|].
  cbn [flat_map]. rewrite opened_app, IH.
  unfold whole_file. destruct (0 <? tokens p); reflexivity.
Qed.

Lemma logged_whole ps : logged (flat_map whole ps) = [].
Proof.
  induction ps as [|p ps IH]; [reflexivity|].
  cbn [flat_map]. rewrite logged_app, IH.
  unfold whole_file. destruct (0 <? tokens p); reflexivity.
Qed.

(** The records of whole files carry exactly the tokens counted. *)
Lemma sum_tokens_whole ps :
  sum_tokens (records (flat_map whole ps)) = zsum (flat_map counts ps).
Proof.
  induction ps as [|p ps IH]; [reflexivity|].
  cbn [flat_map]. rewrite records_app, sum_tokens_app, zsum_app, IH.
  f_equal. unfold whole_file.
  pose proof (file_tokens_nonneg p) as Hnn.
  destruct (Z.ltb_spec 0 (tokens p)) as [Hpos|Hzero].
  - unfold sum_tokens, rec_tokens. simpl. unfold file_tokens. lia.
  - unfold sum_tokens. simpl. unfold file_tokens in *. lia.
Qed.

(** Totals only grow, so when all are within the limit the last one is;
    with nothing counted the total is the one at the start. *)
Lemma within_total_le total cs :
  within token_limit (running_totals total cs) ->
  (forall c, In c cs -> 0 <= c) ->
  total + zsum cs <= Z.max token_limit total.
Proof.
  revert total. induction cs as [|c cs IH]; intros total H Hnn.
  - simpl. lia.
  - simpl in H. inversion H as [|? ? Hc Hrest]; subst.
    specialize (IH (total + c) Hrest (fun x Hx => Hnn x (or_intror Hx))).
    specialize (Hnn c (or_introl eq_refl)).
    simpl. lia.
Qed.

Lemma flat_counts_nonneg ps c : In c (flat_map counts ps) -> 0 <= c.
Proof.
  intros H. apply in_flat_map in H. destruct H as (p & _ & H).
  unfold file_counts, counts_of in H. apply in_map_iff in H.
  destruct H as (x & <- & _). apply count_tokens_nonneg.
Qed.

(** The scan from an empty budget: it stops over budget or completes. *)
Lemma iter_files_loop_budget paths :
  stops_over_budget encode fs chunk_size token_limit paths (loop paths 0) \/
  (within token_limit (running_totals 0 (flat_map counts paths)) /\
   completes_with_total_at_most encode fs chunk_size
     (Z.max token_limit 0) paths (loop paths 0)).
Proof.
  destruct (iter_files_loop_cases paths 0)
    as [(ps1 & p & ps2 & done & chunk & todo & Hp & Hchunks & Hin & Hover & Hrun)
       | [Hin Hrun]].
  - left. exists ps1, p, ps2, done, chunk, todo.
    rewrite sum_tokens_whole. cbn zeta.
    rewrite !Z.add_0_l in *. repeat split; assumption.
  - right. split; [exact Hin|]. unfold completes_with_total_at_most.
    rewrite Hrun. cbn [fst]. rewrite opened_whole, sum_tokens_whole.
    repeat split.
    pose proof (within_total_le 0 _ Hin (flat_counts_nonneg paths)). lia.
Qed.

End Loop.

(** ** The path filter and the walk *)

Section Walk.

Context {Pattern : Type}.
Variable re_search : Pattern -> pystr -> bool.

Lemma name_child top n : name (child top n) = n.
Proof. unfold name, child. simpl. apply last_last. Qed.

(** Rules 2 to 5 of the filter, as Booleans: a pattern that is not set
    lets everything pass. *)
Definition unset_or_found (regex : option Pattern) (s : pystr) : bool :=
  match regex with
  | Some r => re_search r s
  | None => true
  end.

Definition unset_or_missing (regex : option Pattern) (s : pystr) : bool :=
  match regex with
  | Some r => negb (re_search r s)
  | None => true
  end.

Definition pattern_rules (self : ContextProvider Pattern) (path : Path) : bool :=
  unset_or_found (regex_whitelist self) (name path)
  && unset_or_missing (regex_blacklist self) (name path)
  && unset_or_found (regex_path_whitelist self) (str path)
  && unset_or_missing (regex_path_blacklist self) (str path).

Lemma file_matches_andb self path :
  _file_matches re_search self path
  = (allow_hidden self || negb (startswith (name path) (py ".")))
    && pattern_rules self path.
Proof.
  unfold _file_matches, pattern_rules, unset_or_found, unset_or_missing,
    set_and_found, set_and_missing.
  destruct (allow_hidden self), (startswith (name path) (py "."));
    destruct (regex_whitelist self) as [wl|]; cbn;
    try destruct (re_search wl (name path)); cbn;
    destruct (regex_blacklist self) as [bl|]; cbn;
    try destruct (re_search bl (name path)); cbn;
    destruct (regex_path_whitelist self) as [pwl|]; cbn;
    try destruct (re_search pwl (str path)); cbn;
    destruct (regex_path_blacklist self) as [pbl|]; cbn;
    try destruct (re_search pbl (str path)); reflexivity.
Qed.

Lemma unset_or_found_iff regex s :
  unset_or_found regex s = true
  <-> regex = None \/ exists r, regex = Some r /\ re_search r s = true.
Proof.
  destruct regex as [r|]; simpl; split; intros H.
  - right. now exists r.
  - destruct H as [H | (r' & H & Hs)]; [discriminate|]. now inversion H; subst.
  - now left.
  - reflexivity.
Qed.

Lemma unset_or_missing_iff regex s :
  unset_or_missing regex s = true
  <-> regex = None \/ exists r, regex = Some r /\ re_search r s = false.
Proof.
  destruct regex as [r|]; simpl; split; intros H.
  - right. exists r. split; [reflexivity|]. now apply negb_true_iff.
  - destruct H as [H | (r' & H & Hs)]; [discriminate|].
    inversion H; subst. now apply negb_true_iff.
  - now left.
  - reflexivity.
Qed.

Lemma file_matches_no_filters self path :
  no_filters self ->
  _file_matches re_search self path
  = allow_hidden self || negb (startswith (name path) (py ".")).
Proof.
  intros (Hwl & Hbl & Hpwl & Hpbl). rewrite file_matches_andb.
  unfold pattern_rules. rewrite Hwl, Hbl, Hpwl, Hpbl. simpl.
  now rewrite andb_true_r.
Qed.

(** *** The walk yields the reachable regular files *)

Variable self : ContextProvider Pattern.

Local Abbreviation reach :=
  (reachable (allow_hidden self) (recursive self)
     (allow_hidden_subdirectories self)).

Lemma hidden_flag_iff (flag : bool) n :
  flag || negb (startswith n (py ".")) = true
  <-> flag = true \/ startswith n (py ".") = false.
Proof.
  rewrite orb_true_iff, negb_true_iff. reflexivity.
Qed.

Lemma visit_reachable (Hnf : no_filters self) e :
  forall top listing p,
    In e listing -> In p (visit re_search self top e) -> reach top listing p.
Proof.
  induction e as [n | n children IH | n] using entry_ind;
    intros top listing p He Hp.
  - cbn [visit] in Hp.
    rewrite (file_matches_no_filters _ _ Hnf), name_child in Hp.
    destruct (allow_hidden self || negb (startswith n (py "."))) eqn:Hvis;
      [|contradiction].
    destruct Hp as [<- | []].
    apply reach_file; [exact He|]. now apply hidden_flag_iff.
  - cbn [visit] in Hp. rewrite name_child in Hp.
    assert (Hrec : recursive self = true)
      by (destruct (recursive self); [reflexivity | contradiction]).
    rewrite Hrec in Hp.
    destruct (allow_hidden_subdirectories self || negb (startswith n (py ".")))
      eqn:Hvis; [|contradiction].
    apply in_flat_map in Hp. destruct Hp as (e' & He' & Hp).
    rewrite Forall_forall in IH.
    apply (reach_dir _ _ _ top listing n children p He Hrec).
    + now apply hidden_flag_iff.
    + exact (IH e' He' (child top n) children p He' Hp).
  - contradiction.
Qed.

Lemma reachable_walk (Hnf : no_filters self) top listing p :
  reach top listing p -> In p (walk re_search self top listing).
Proof.
  induction 1 as [top listing n Hin Hvis
                 | top listing n children p Hin Hrec Hvis _ IH].
  - unfold walk. apply in_flat_map. exists (RegFile n). split; [exact Hin|].
    cbn [visit]. rewrite (file_matches_no_filters _ _ Hnf), name_child.
    apply hidden_flag_iff in Hvis. rewrite Hvis. now left.
  - unfold walk. apply in_flat_map. exists (Directory n children).
    split; [exact Hin|].
    cbn [visit]. rewrite name_child, Hrec.
    apply hidden_flag_iff in Hvis. rewrite Hvis. exact IH.
Qed.

(** Every path the walk yields lies strictly below [top]. *)
Lemma visit_below e :
  forall top p,
    In p (visit re_search self top e) ->
    exists suffix,
      suffix <> [] /\ p = mkPath (absolute top) (parts top ++ suffix).
Proof.
  induction e as [n | n children IH | n] using entry_ind; intros top p Hp.
  - cbn [visit] in Hp.
    destruct (_file_matches re_search self (child top n)); [|contradiction].
    destruct Hp as [<- | []]. exists [n]. split; [discriminate | reflexivity].
  - cbn [visit] in Hp.
    destruct (recursive self); [|contradiction].
    destruct (allow_hidden_subdirectories self
              || negb (startswith (name (child top n)) (py ".")));
      [|contradiction].
    apply in_flat_map in Hp. destruct Hp as (e' & He' & Hp).
    rewrite Forall_forall in IH.
    destruct (IH e' He' (child top n) p Hp) as (suffix & Hne & ->).
    exists (n :: suffix). split; [discriminate|].
    unfold child. simpl. now rewrite <- app_assoc.
  - contradiction.
Qed.

Lemma walk_below top listing p :
  In p (walk re_search self top listing) ->
  exists suffix,
    suffix <> [] /\ p = mkPath (absolute top) (parts top ++ suffix).
Proof.
  unfold walk. intros Hp. apply in_flat_map in Hp.
  destruct Hp as (e & _ & Hp). now apply (visit_below e).
Qed.

End Walk.

Arguments unset_or_found {Pattern}.
Arguments unset_or_missing {Pattern}.
Arguments pattern_rules {Pattern}.

(** An empty pattern string counts as no pattern. *)
Lemma compile_if_set_empty (Pattern : Type) (re_compile : pystr -> option Pattern) :
  compile_if_set re_compile (Some []) = inr None /\
  compile_if_set re_compile None = inr None.
Proof. split; reflexivity. Qed.

(** C2.  The path filter includes a path exactly when it passes the five
    rules, tried in this order, the first failing rule excluding it:
    hidden files are allowed or the base name does not start with a dot;
    no name whitelist is set or it is found in the base name; no name
    blacklist is set or it is not found in the base name; no path
    whitelist is set or it is found in the full path string; no path
    blacklist is set or it is not found in the full path string.  "Found"
    is [Pattern.search], a match anywhere in the string.  A file named
    [.env] is excluded when hidden files are not allowed and, everything
    else equal, passes the first rule when they are: it is included when
    the pattern rules let it pass, in particular when no pattern is set. *)
Theorem file_matches_rules :
  forall (Pattern : Type) (re_search : Pattern -> pystr -> bool)
         (self : ContextProvider Pattern) (path : Path),
    (_file_matches re_search self path
     = (allow_hidden self || negb (startswith (name path) (py ".")))
       && unset_or_found re_search (regex_whitelist self) (name path)
       && unset_or_missing re_search (regex_blacklist self) (name path)
       && unset_or_found re_search (regex_path_whitelist self) (str path)
       && unset_or_missing re_search (regex_path_blacklist self) (str path))
    /\
    (_file_matches re_search self path = true <->
     (allow_hidden self = true \/ startswith (name path) (py ".") = false) /\
     (regex_whitelist self = None \/
      exists r, regex_whitelist self = Some r /\ re_search r (name path) = true) /\
     (regex_blacklist self = None \/
      exists r, regex_blacklist self = Some r /\ re_search r (name path) = false) /\
     (regex_path_whitelist self = None \/
      exists r, regex_path_whitelist self = Some r /\ re_search r (str path) = true) /\
     (regex_path_blacklist self = None \/
      exists r, regex_path_blacklist self = Some r /\ re_search r (str path) = false))
    /\
    (forall top : Path,
        let env := child top (py ".env") in
        _file_matches re_search (with_allow_hidden false self) env = false /\
        _file_matches re_search (with_allow_hidden true self) env
        = pattern_rules re_search self env /\
        _file_matches re_search
          (mkProvider (directory self) None None true (recursive self)
             (allow_hidden_subdirectories self) None None
             (skip_unreadable self) (skip_empty self)) env = true).
Proof.
  intros Pattern re_search self path.
  split; [|split].
  - rewrite file_matches_andb. unfold pattern_rules.
    now rewrite !andb_assoc.
  - rewrite file_matches_andb. unfold pattern_rules.
    rewrite !andb_true_iff, hidden_flag_iff.
    rewrite !unset_or_found_iff, !unset_or_missing_iff.
    tauto.
  - intros top env. subst env.
    rewrite !file_matches_andb, !name_child. repeat split.
Qed.

(** ** Sample directories *)

Definition sample_listing : list entry :=
  [RegFile (py "a.txt");
   RegFile (py ".env");
   Directory (py "src") [RegFile (py "b.py")];
   Directory (py ".git") [RegFile (py "config")];
   Special (py "sock")].

Definition sample_data (n : pystr) : list byte :=
  if pystr_eqb n (py "a.txt") then bytes_of "hello"
  else if pystr_eqb n (py "b.py") then bytes_of "world"
  else bytes_of "secret".

Definition sample_fs : filesystem := fs_of sample_listing sample_data.

Definition a_txt : Path := child project (py "a.txt").
Definition b_py : Path := child (child project (py "src")) (py "b.py").

(** A directory holding one file of no bytes at all. *)
Definition empty_file_fs : filesystem :=
  fs_of [RegFile (py "empty.txt")] (fun _ => []).

(** C4.  With no regular-expression filter set, [iter_file_paths] yields
    exactly the regular files reachable under the root: the walk enters a
    subdirectory only when [recursive] is set and, for a name starting
    with a dot, only when [allow_hidden_subdirectories] is set; files
    whose name starts with a dot are left out unless [allow_hidden] is
    set; only regular files are yielded, never a directory. *)
Theorem iter_file_paths_reachable :
  forall (Pattern : Type) (re_search : Pattern -> pystr -> bool)
         (self : ContextProvider Pattern) (fs : filesystem) (top : option Path),
    no_filters self ->
    forall p : Path,
      In p (iter_file_paths re_search self fs top) <->
      reachable (allow_hidden self) (recursive self)
        (allow_hidden_subdirectories self)
        (top_or_directory self top) (tree_at fs (top_or_directory self top)) p.
Proof.
  intros Pattern re_search self fs top Hnf p.
  unfold iter_file_paths. split.
  - unfold walk. intros Hp. apply in_flat_map in Hp.
    destruct Hp as (e & He & Hp).
    now apply (visit_reachable re_search self Hnf e).
  - now apply reachable_walk.
Qed.

Lemma iter_file_paths_reachable_witness :
  no_filters default_provider /\
  (In b_py (iter_file_paths find_sub default_provider sample_fs None) <->
   reachable false true false project sample_listing b_py).
Proof.
  split.
  - repeat split.
  - apply (iter_file_paths_reachable pystr find_sub default_provider
             sample_fs None).
    repeat split.
Defined.

Section Run.

Context {Pattern : Type}.
Variable encode : pystr -> list nat.
Variable self : ContextProvider Pattern.
Variable fs : filesystem.
Variables chunk_size token_limit : Z.

Local Abbreviation loop := (iter_files_loop encode self fs chunk_size token_limit).
Local Abbreviation counts := (file_counts encode fs chunk_size).
Local Abbreviation tokens := (file_tokens encode fs chunk_size).
Local Abbreviation whole := (whole_file encode fs chunk_size).

(** Nothing in a run is ever logged and no exception leaves it: the only
    handler is for [UnicodeDecodeError], which the permissive reader does
    not raise. *)
Lemma iter_files_loop_no_error paths total :
  logged (fst (loop paths total)) = [] /\ snd (loop paths total) = Returned.
Proof.
  destruct (iter_files_loop_cases encode self fs chunk_size token_limit paths total)
    as [(ps1 & p & ps2 & done & chunk & todo & _ & _ & _ & _ & ->) | [_ ->]];
    cbn [fst snd]; split; try reflexivity.
  - rewrite logged_app, logged_whole. reflexivity.
  - apply logged_whole.
Qed.

(** When the counts add up to no more than the limit, every running
    total is within it. *)
Lemma within_of_total start cs :
  (forall c, In c cs -> 0 <= c) ->
  start + zsum cs <= token_limit ->
  within token_limit (running_totals start cs).
Proof.
  revert start. induction cs as [|c cs IH]; intros start Hnn Hle.
  - constructor.
  - pose proof (Hnn c (or_introl eq_refl)) as Hc.
    assert (Hrest : 0 <= zsum cs).
    { clear -Hnn. induction cs as [|x cs IH]; simpl; [lia|].
      pose proof (Hnn x (or_intror (or_introl eq_refl))).
      assert (0 <= zsum cs)
        by (apply IH; intros y [Hy|Hy]; apply Hnn; [now left | right; now right]).
      lia. }
    simpl in *. constructor; [lia|].
    apply IH; [intros x Hx; apply Hnn; now right | lia].
Qed.

(** Totals that start at the limit and stay within it count nothing. *)
Lemma within_at_limit cs :
  (forall c, In c cs -> 0 <= c) ->
  within token_limit (running_totals token_limit cs) ->
  Forall (fun c => c = 0) cs.
Proof.
  induction cs as [|c cs IH]; intros Hnn H; [constructor|].
  simpl in H. inversion H as [|? ? Hc Hrest]; subst.
  pose proof (Hnn c (or_introl eq_refl)) as Hc0.
  assert (c = 0) by lia. subst c. rewrite Z.add_0_r in Hrest.
  constructor; [reflexivity|].
  apply IH; [intros x Hx; apply Hnn; now right | exact Hrest].
Qed.

(** The records of whole files. *)
Lemma records_whole_in ps r :
  In r (records (flat_map whole ps)) ->
  exists q, In q ps /\ 0 < tokens q /\
            r = (tokens q, q, file_content fs chunk_size q).
Proof.
  induction ps as [|p ps IH]; [contradiction|].
  cbn [flat_map]. rewrite records_app. intros H. apply in_app_or in H.
  destruct H as [H|H].
  - unfold whole_file in H.
    destruct (Z.ltb_spec 0 (tokens p)) as [Hpos|Hzero]; [|contradiction].
    destruct H as [<- | []]. exists p. repeat split; [now left | exact Hpos].
  - destruct (IH H) as (q & Hq & Hpos & ->). exists q.
    repeat split; [now right | exact Hpos].
Qed.

End Run.

(** C1 (as amended).  For a chunk size that [file.read] accepts,
    [iter_files] keeps one running total of the tokens
    of all chunks processed in the call.  Either some chunk is the first
    to take that total strictly above the limit: the scan then yields
    [(running total, path, content accumulated so far for that file)],
    the running total being the tokens of the records yielded before plus
    those of the current file so far, and ends at once, no further file
    being opened.  Or every file is read to the end, each file with
    tokens yielding its record, and the total is at most the limit when
    the limit is not negative, and zero when it is. *)
Theorem iter_files_budget :
  forall (Pattern : Type) (re_search : Pattern -> pystr -> bool)
         (encode : pystr -> list nat) (self : ContextProvider Pattern)
         (fs : filesystem) (top : option Path) (chunk_size token_limit : Z),
    read_size_ok chunk_size ->
    let paths := iter_file_paths re_search self fs top in
    let run := iter_files re_search encode self fs top chunk_size token_limit in
    stops_over_budget encode fs chunk_size token_limit paths run \/
    (within token_limit
       (running_totals 0 (flat_map (file_counts encode fs chunk_size) paths)) /\
     completes_with_total_at_most encode fs chunk_size
       (Z.max token_limit 0) paths run).
Proof.
  intros Pattern re_search encode self fs top chunk_size token_limit _ paths run.
  apply iter_files_loop_budget.
Qed.

Lemma iter_files_budget_witness :
  read_size_ok 2 /\
  (stops_over_budget char_encode sample_fs 2 6
     (iter_file_paths find_sub default_provider sample_fs None)
     (iter_files find_sub char_encode default_provider sample_fs None 2 6) \/
   (within 6
      (running_totals 0
         (flat_map (file_counts char_encode sample_fs 2)
            (iter_file_paths find_sub default_provider sample_fs None))) /\
    completes_with_total_at_most char_encode sample_fs 2 (Z.max 6 0)
      (iter_file_paths find_sub default_provider sample_fs None)
      (iter_files find_sub char_encode default_provider sample_fs None 2 6))).
Proof.
  split; [unfold read_size_ok; lia|].
  apply (iter_files_budget pystr find_sub char_encode default_provider
           sample_fs None 2 6).
  unfold read_size_ok. lia.
Defined.

(** C1, as stated, fails for a negative limit: over a directory whose only
    file is empty no chunk is ever processed, the scan completes with
    total 0, and 0 is above the limit -1. *)
Lemma iter_files_budget_negative_limit :
  let paths := iter_file_paths find_sub default_provider empty_file_fs None in
  let run := iter_files find_sub char_encode default_provider empty_file_fs
               None default_chunk_size (-1) in
  run = ([Opened (child project (py "empty.txt"))], Returned) /\
  ~ (stops_over_budget char_encode empty_file_fs default_chunk_size (-1) paths run \/
     completes_with_total_at_most char_encode empty_file_fs default_chunk_size
       (-1) paths run).
Proof.
  cbv zeta. split; [reflexivity|].
  intros [(ps1 & p & ps2 & done & chunk & todo & Hpaths & Hchunks & _) | (_ & _ & Hsum)].
  - destruct ps1 as [|q ps1].
    + injection Hpaths as <- _. vm_compute in Hchunks.
      destruct done; discriminate.
    + injection Hpaths as _ Hrest. destruct ps1; discriminate.
  - vm_compute in Hsum. apply Hsum. reflexivity.
Qed.

(** A directory with a blank file listed before two files of text. *)
Definition blank_first_fs : filesystem :=
  fs_of [RegFile (py "blank.txt"); RegFile (py "a.txt"); RegFile (py "b.py")]
        (fun n => if pystr_eqb n (py "blank.txt") then bytes_of " "
                  else sample_data n).

Definition blank_txt : Path := child project (py "blank.txt").

(** A directory whose only file holds a single space. *)
Definition blank_only_fs : filesystem :=
  fs_of [RegFile (py "blank.txt")] (fun _ => bytes_of " ").

(** C8.  A matching file that is read to the end with the running total
    never above the limit yields the record
    [(file token total, path, accumulated content)] exactly when its
    token total is positive; a file with no tokens yields nothing, nothing
    is logged, no exception is raised, and the scan goes on with the
    next file. *)
Theorem iter_files_whole_file :
  forall (Pattern : Type) (re_search : Pattern -> pystr -> bool)
         (encode : pystr -> list nat) (self : ContextProvider Pattern)
         (fs : filesystem) (top : option Path) (chunk_size token_limit : Z)
         (ps1 : list Path) (p : Path) (ps2 : list Path),
    iter_file_paths re_search self fs top = ps1 ++ p :: ps2 ->
    within token_limit
      (running_totals 0
         (flat_map (file_counts encode fs chunk_size) (ps1 ++ [p]))) ->
    let run := iter_files re_search encode self fs top chunk_size token_limit in
    let ft := file_tokens encode fs chunk_size p in
    exists yielded,
      fst run
      = flat_map (whole_file encode fs chunk_size) ps1
          ++ Opened p :: yielded
          ++ fst (iter_files_loop encode self fs chunk_size token_limit ps2
                    (zsum (flat_map (file_counts encode fs chunk_size)
                             (ps1 ++ [p])))) /\
      (0 < ft /\ yielded = [Yielded (ft, p, file_content fs chunk_size p)]
       \/ ft = 0 /\ yielded = []) /\
      logged (fst run) = [] /\
      snd run = Returned.
Proof.
  intros Pattern re_search encode self fs top chunk_size token_limit ps1 p ps2
         Hpaths Hin run ft.
  subst run. unfold iter_files. rewrite Hpaths.
  destruct (iter_files_loop_no_error encode self fs chunk_size token_limit
              (ps1 ++ p :: ps2) 0) as [Hlog Hout].
  exists (if 0 <? ft then [Yielded (ft, p, file_content fs chunk_size p)] else []).
  repeat split; try assumption.
  - replace (ps1 ++ p :: ps2) with ((ps1 ++ [p]) ++ ps2)
      by (now rewrite <- app_assoc).
    rewrite (iter_files_loop_prefix encode self fs chunk_size token_limit
               (ps1 ++ [p]) ps2 0 Hin).
    cbn [fst]. rewrite flat_map_app, Z.add_0_l. cbn [flat_map].
    rewrite app_nil_r, <- !app_assoc. reflexivity.
  - pose proof (file_tokens_nonneg encode fs chunk_size p) as Hnn.
    fold ft in Hnn.
    destruct (Z.ltb_spec 0 ft) as [Hpos|Hzero].
    + left. now split.
    + right. split; [lia | reflexivity].
Qed.

Lemma iter_files_whole_file_witness :
  iter_file_paths find_sub default_provider blank_first_fs None
  = [blank_txt] ++ a_txt :: [child project (py "b.py")] /\
  within 10
    (running_totals 0
       (flat_map (file_counts char_encode blank_first_fs default_chunk_size)
          ([blank_txt] ++ [a_txt]))) /\
  exists yielded,
    fst (iter_files find_sub char_encode default_provider blank_first_fs None
           default_chunk_size 10)
    = flat_map (whole_file char_encode blank_first_fs default_chunk_size) [blank_txt]
        ++ Opened a_txt :: yielded
        ++ fst (iter_files_loop char_encode default_provider blank_first_fs
                  default_chunk_size 10 [child project (py "b.py")]
                  (zsum (flat_map
                           (file_counts char_encode blank_first_fs default_chunk_size)
                           ([blank_txt] ++ [a_txt])))) /\
    (0 < file_tokens char_encode blank_first_fs default_chunk_size a_txt /\
     yielded = [Yielded (file_tokens char_encode blank_first_fs default_chunk_size a_txt,
                         a_txt,
                         file_content blank_first_fs default_chunk_size a_txt)]
     \/ file_tokens char_encode blank_first_fs default_chunk_size a_txt = 0 /\
        yielded = []) /\
    logged (fst (iter_files find_sub char_encode default_provider blank_first_fs
                   None default_chunk_size 10)) = [] /\
    snd (iter_files find_sub char_encode default_provider blank_first_fs None
           default_chunk_size 10) = Returned.
Proof.
  split; [reflexivity|].
  split.
  - vm_compute. repeat constructor; discriminate.
  - apply (iter_files_whole_file pystr find_sub char_encode default_provider
             blank_first_fs None default_chunk_size 10
             [blank_txt] a_txt [child project (py "b.py")]).
    + reflexivity.
    + vm_compute. repeat constructor; discriminate.
Defined.

(** C7 (as amended).  With a token limit of 0 and a chunk size that
    [file.read] accepts, when some matching file
    has tokens, [iter_files] yields exactly one record and then stops.
    The record is for the first file, in the order of the walk, that has
    a chunk with tokens; it carries the tokens of that chunk, which are
    more than 0, and the content accumulated up to it.  The files before
    it, which have no tokens, are opened and yield nothing; no file after
    it is opened. *)
Theorem iter_files_zero_limit :
  forall (Pattern : Type) (re_search : Pattern -> pystr -> bool)
         (encode : pystr -> list nat) (self : ContextProvider Pattern)
         (fs : filesystem) (top : option Path) (chunk_size : Z),
    read_size_ok chunk_size ->
    let paths := iter_file_paths re_search self fs top in
    let run := iter_files re_search encode self fs top chunk_size 0 in
    Exists (fun p => 0 < file_tokens encode fs chunk_size p) paths ->
    exists ps1 p ps2 done chunk todo,
      paths = ps1 ++ p :: ps2 /\
      Forall (fun q => file_tokens encode fs chunk_size q = 0) ps1 /\
      file_chunks fs chunk_size p = done ++ chunk :: todo /\
      Forall (fun c => count_tokens encode (strip c) = 0) done /\
      0 < count_tokens encode (strip chunk) /\
      run = (map Opened ps1
               ++ [Opened p;
                   Yielded (count_tokens encode (strip chunk), p,
                            content_of (done ++ [chunk]))],
             Returned) /\
      records (fst run)
      = [(count_tokens encode (strip chunk), p, content_of (done ++ [chunk]))] /\
      opened (fst run) = ps1 ++ [p].
Proof.
  intros Pattern re_search encode self fs top chunk_size _ paths run Hsome.
  assert (Hzero : forall l,
             within 0 (running_totals 0 (flat_map (file_counts encode fs chunk_size) l)) ->
             Forall (fun q => file_tokens encode fs chunk_size q = 0) l).
  { induction l as [|q l IHl]; intros H; [constructor|].
    cbn [flat_map] in H.
    pose proof (file_tokens_nonneg encode fs chunk_size q) as Hq.
    assert (Hle := within_total_le 0 0 _ H
                     (flat_counts_nonneg encode fs chunk_size (q :: l))).
    cbn [flat_map] in Hle. rewrite zsum_app in Hle.
    pose proof (zsum_flat_counts_nonneg encode fs chunk_size l) as Hl.
    fold (file_tokens encode fs chunk_size q) in Hle.
    assert (Hq0 : file_tokens encode fs chunk_size q = 0) by lia.
    constructor; [exact Hq0|].
    apply IHl. rewrite running_totals_app in H. apply within_app in H.
    destruct H as [_ H]. fold (file_tokens encode fs chunk_size q) in H.
    now rewrite Hq0 in H. }
  destruct (iter_files_loop_cases encode self fs chunk_size 0 paths 0)
    as [(ps1 & p & ps2 & done & chunk & todo & Hp & Hchunks & Hin & Hover & Hrun)
       | [Hin Hrun]].
  - rewrite running_totals_app in Hin. apply within_app in Hin.
    destruct Hin as [Hps1 Hdone].
    pose proof (Hzero ps1 Hps1) as Hps1zero.
    assert (Hsum1 : zsum (flat_map (file_counts encode fs chunk_size) ps1) = 0).
    { pose proof (within_total_le 0 0 _ Hps1
                    (flat_counts_nonneg encode fs chunk_size ps1)).
      pose proof (zsum_flat_counts_nonneg encode fs chunk_size ps1). lia. }
    rewrite Hsum1 in Hdone, Hover, Hrun.
    assert (Hdone0 : Forall (fun c => c = 0) (counts_of encode done)).
    { apply (within_at_limit 0); [|exact Hdone].
      intros c Hc. unfold counts_of in Hc. apply in_map_iff in Hc.
      destruct Hc as (x & <- & _). apply count_tokens_nonneg. }
    assert (Hsumd : zsum (counts_of encode done) = 0).
    { clear -Hdone0. induction Hdone0 as [|c l Hc _ IH]; simpl; lia. }
    rewrite counts_of_app, zsum_app, Hsumd in Hover, Hrun.
    cbn in Hover, Hrun.
    rewrite Z.add_0_r in Hover, Hrun.
    assert (Hwhole : flat_map (whole_file encode fs chunk_size) ps1 = map Opened ps1).
    { clear -Hps1zero. induction Hps1zero as [|q l Hq _ IH]; [reflexivity|].
      cbn [flat_map map]. rewrite IH. unfold whole_file. now rewrite Hq. }
    rewrite Hwhole in Hrun.
    exists ps1, p, ps2, done, chunk, todo.
    split; [exact Hp|]. split; [exact Hps1zero|]. split; [exact Hchunks|].
    split.
    { unfold counts_of in Hdone0. now rewrite Forall_map in Hdone0. }
    split; [exact Hover|].
    subst run. unfold iter_files. fold paths. rewrite Hrun. cbn [fst].
    split; [reflexivity|].
    rewrite records_app, opened_app.
    assert (Hr : records (map Opened ps1) = [])
      by (clear; induction ps1 as [|q l IH]; [reflexivity | exact IH]).
    assert (Ho : opened (map Opened ps1) = ps1)
      by (clear; induction ps1 as [|q l IH]; [reflexivity | simpl; now f_equal]).
    now rewrite Hr, Ho.
  - exfalso. pose proof (Hzero paths Hin) as Hall.
    apply Exists_exists in Hsome. destruct Hsome as (q & Hq & Hpos).
    rewrite Forall_forall in Hall. specialize (Hall q Hq). lia.
Qed.

Lemma iter_files_zero_limit_witness :
  read_size_ok default_chunk_size /\
  Exists (fun p => 0 < file_tokens char_encode blank_first_fs default_chunk_size p)
    (iter_file_paths find_sub default_provider blank_first_fs None) /\
  exists ps1 p ps2 done chunk todo,
    iter_file_paths find_sub default_provider blank_first_fs None
    = ps1 ++ p :: ps2 /\
    Forall (fun q => file_tokens char_encode blank_first_fs default_chunk_size q = 0) ps1 /\
    file_chunks blank_first_fs default_chunk_size p = done ++ chunk :: todo /\
    Forall (fun c => count_tokens char_encode (strip c) = 0) done /\
    0 < count_tokens char_encode (strip chunk) /\
    iter_files find_sub char_encode default_provider blank_first_fs None
      default_chunk_size 0
    = (map Opened ps1
         ++ [Opened p;
             Yielded (count_tokens char_encode (strip chunk), p,
                      content_of (done ++ [chunk]))],
       Returned) /\
    records (fst (iter_files find_sub char_encode default_provider blank_first_fs
                    None default_chunk_size 0))
    = [(count_tokens char_encode (strip chunk), p, content_of (done ++ [chunk]))] /\
    opened (fst (iter_files find_sub char_encode default_provider blank_first_fs
                   None default_chunk_size 0)) = ps1 ++ [p].
Proof.
  split; [unfold read_size_ok, default_chunk_size; lia|].
  split.
  - apply Exists_cons_tl, Exists_cons_hd. reflexivity.
  - apply (iter_files_zero_limit pystr find_sub char_encode default_provider
             blank_first_fs None default_chunk_size).
    + unfold read_size_ok, default_chunk_size. lia.
    + apply Exists_cons_tl, Exists_cons_hd. reflexivity.
Defined.

(** C7, as stated, fails for a file that holds only white space: the file
    matches and is not empty, yet with a token limit of 0 nothing is
    yielded, because its only chunk strips to the empty string. *)
Lemma iter_files_zero_limit_blank_file :
  let paths := iter_file_paths find_sub default_provider blank_only_fs None in
  let run := iter_files find_sub char_encode default_provider blank_only_fs None
               default_chunk_size 0 in
  paths = [blank_txt] /\
  bytes_at blank_only_fs blank_txt <> [] /\
  run = ([Opened blank_txt], Returned) /\
  ~ (exists r, records (fst run) = [r] /\ 0 < rec_tokens r).
Proof.
  cbv zeta. split; [reflexivity|]. split; [discriminate|].
  split; [reflexivity|].
  intros (r & Hr & _). vm_compute in Hr. discriminate.
Qed.

(** ** Totals and the context string *)

(** Two text files that end in a line break, as text files do. *)
Definition two_lines_fs : filesystem :=
  fs_of [RegFile (py "a.txt"); RegFile (py "b.txt")]
        (fun n => if pystr_eqb n (py "a.txt")
                  then bytes_of "hello" ++ [x0a]
                  else bytes_of "world" ++ [x0a]).

Definition b_txt : Path := child project (py "b.txt").

(** C5 (as amended).  [calculate_tokens] returns the sum of the token
    counts of the records that [iter_files] yields with the default chunk
    size and token limit, so it is bounded by the budget.  For a
    directory with two matching files whose tokens together stay within
    the default limit it is the sum of the two files' token counts, where
    a file's token count is the sum, over its chunks of 1024 characters,
    of the tokenizer's count for the chunk with surrounding white space
    stripped; for a non-empty file of at most 1024 characters that is the
    tokenizer's count for the stripped text of the file. *)
Theorem calculate_tokens_sum :
  forall (Pattern : Type) (re_search : Pattern -> pystr -> bool)
         (encode : pystr -> list nat) (self : ContextProvider Pattern)
         (fs : filesystem) (top : option Path),
    calculate_tokens re_search encode self fs top
    = inr (sum_tokens
             (records (fst (iter_files re_search encode self fs top
                              default_chunk_size default_token_limit)))) /\
    (forall p1 p2 : Path,
        iter_file_paths re_search self fs top = [p1; p2] ->
        file_tokens encode fs default_chunk_size p1
        + file_tokens encode fs default_chunk_size p2 <= default_token_limit ->
        calculate_tokens re_search encode self fs top
        = inr (file_tokens encode fs default_chunk_size p1
               + file_tokens encode fs default_chunk_size p2)) /\
    (forall p : Path,
        file_text fs p <> [] ->
        Z.of_nat (List.length (file_text fs p)) <= default_chunk_size ->
        file_tokens encode fs default_chunk_size p
        = count_tokens encode (strip (file_text fs p))).
Proof.
  intros Pattern re_search encode self fs top.
  assert (Hcalc : calculate_tokens re_search encode self fs top
                  = inr (sum_tokens
                           (records (fst (iter_files re_search encode self fs top
                                            default_chunk_size default_token_limit))))).
  { unfold calculate_tokens.
    pose proof (iter_files_loop_no_error encode self fs default_chunk_size
                  default_token_limit (iter_file_paths re_search self fs top) 0)
      as [_ Hout].
    unfold iter_files.
    destruct (iter_files_loop encode self fs default_chunk_size default_token_limit
                (iter_file_paths re_search self fs top) 0) as [evs out].
    cbn [snd] in Hout. now subst out. }
  split; [exact Hcalc|]. split.
  - intros p1 p2 Hpaths Hle. rewrite Hcalc. unfold iter_files. rewrite Hpaths.
    assert (Hin : within default_token_limit
                    (running_totals 0
                       (flat_map (file_counts encode fs default_chunk_size)
                          [p1; p2]))).
    { apply within_of_total.
      - apply flat_counts_nonneg.
      - cbn [flat_map]. rewrite !zsum_app. unfold file_tokens in Hle.
        simpl. lia. }
    pose proof (iter_files_loop_prefix encode self fs default_chunk_size
                  default_token_limit [p1; p2] [] 0 Hin) as Hrun.
    cbn [app] in Hrun. rewrite Hrun.
    cbn [fst iter_files_loop]. rewrite !app_nil_r.
    rewrite sum_tokens_whole. cbn [flat_map]. rewrite !zsum_app.
    unfold file_tokens. simpl. f_equal. lia.
  - intros p Hne Hlen. unfold file_tokens, file_counts, file_chunks.
    rewrite read_chunks_short by assumption.
    simpl. lia.
Qed.

Lemma calculate_tokens_sum_witness :
  iter_file_paths find_sub default_provider two_lines_fs None = [a_txt; b_txt] /\
  file_tokens char_encode two_lines_fs default_chunk_size a_txt
  + file_tokens char_encode two_lines_fs default_chunk_size b_txt
  <= default_token_limit /\
  calculate_tokens find_sub char_encode default_provider two_lines_fs None
  = inr (file_tokens char_encode two_lines_fs default_chunk_size a_txt
         + file_tokens char_encode two_lines_fs default_chunk_size b_txt).
Proof.
  split; [reflexivity|]. split; [discriminate|].
  apply (proj1 (proj2 (calculate_tokens_sum pystr find_sub char_encode
                         default_provider two_lines_fs None))).
  - reflexivity.
  - discriminate.
Defined.

(** C5, as stated, fails when a file has white space at its ends: for
    two files ["hello\n"] and ["world\n"] the tokenizer counts 6 tokens
    for each file's text, 12 together and far below the limit, while
    [calculate_tokens] returns 10, the line breaks being stripped before
    the tokenizer sees them. *)
Lemma calculate_tokens_not_tokenizer_total :
  iter_file_paths find_sub default_provider two_lines_fs None = [a_txt; b_txt] /\
  count_tokens char_encode (file_text two_lines_fs a_txt) = 6 /\
  count_tokens char_encode (file_text two_lines_fs b_txt) = 6 /\
  6 + 6 < default_token_limit /\
  calculate_tokens find_sub char_encode default_provider two_lines_fs None
  = inr 10 /\
  calculate_tokens find_sub char_encode default_provider two_lines_fs None
  <> inr (count_tokens char_encode (file_text two_lines_fs a_txt)
          + count_tokens char_encode (file_text two_lines_fs b_txt)).
Proof.
  repeat split; try reflexivity. vm_compute. discriminate.
Qed.

Section Format.

Context {Pattern : Type}.
Variable encode : pystr -> list nat.
Variable self : ContextProvider Pattern.
Variable fs : filesystem.

Lemma pystr_eqb_refl s : pystr_eqb s s = true.
Proof.
  induction s as [|c s IH]; [reflexivity|].
  simpl. now rewrite N.eqb_refl, IH.
Qed.

Lemma strip_prefix_app pre suffix : strip_prefix pre (pre ++ suffix) = Some suffix.
Proof.
  induction pre as [|a pre IH]; [reflexivity|].
  simpl. now rewrite pystr_eqb_refl.
Qed.

Lemma relative_to_below top suffix :
  relative_to (mkPath (absolute top) (parts top ++ suffix)) top
  = Some (mkPath false suffix).
Proof.
  unfold relative_to. cbn [absolute parts].
  now rewrite Bool.eqb_reflx, strip_prefix_app.
Qed.

(** The block [format_record] builds for a record whose path, relative
    to the scan root, is [rel]. *)
Definition block_of (rel : Path) (content : pystr) : pystr :=
  py "// File '" ++ str rel ++ py "'" ++ nl ++ content ++ nl.

(** Every record is formatted as long as its path lies under the root. *)
Lemma format_records_below rs :
  Forall (fun r => exists rel,
              relative_to (rec_path r) (directory self) = Some rel) rs ->
  exists blocks,
    format_records self rs = inr blocks /\
    Forall2 (fun r block =>
               exists rel,
                 relative_to (rec_path r) (directory self) = Some rel /\
                 block = block_of rel (rec_content r)) rs blocks.
Proof.
  induction 1 as [|r rs (rel & Hrel) _ (blocks & Hfmt & Hall)].
  - exists []. split; [reflexivity | constructor].
  - exists (block_of rel (rec_content r) :: blocks). split.
    + cbn [format_records]. unfold format_record. now rewrite Hrel, Hfmt.
    + constructor; [|exact Hall]. now exists rel.
Qed.

(** The records of a run are about paths of the walk; the content of each
    is made of the stripped chunks read from its file, all of them unless
    the scan stopped over budget in that file. *)
Lemma iter_files_loop_records chunk_size token_limit paths total r :
  In r (records (fst (iter_files_loop encode self fs chunk_size token_limit
                        paths total))) ->
  In (rec_path r) paths /\
  exists done todo,
    file_chunks fs chunk_size (rec_path r) = done ++ todo /\
    rec_content r = content_of done /\
    (todo = [] /\ rec_tokens r = file_tokens encode fs chunk_size (rec_path r)
     \/ token_limit < rec_tokens r).
Proof.
  destruct (iter_files_loop_cases encode self fs chunk_size token_limit paths total)
    as [(ps1 & p & ps2 & done & chunk & todo & -> & Hchunks & _ & Hover & ->)
       | [_ ->]]; cbn [fst].
  - rewrite records_app. intros H. apply in_app_or in H. destruct H as [H|H].
    + apply records_whole_in in H. destruct H as (q & Hq & _ & ->).
      split; [apply in_or_app; now left|].
      exists (file_chunks fs chunk_size q), []. cbn [rec_path rec_content rec_tokens fst snd].
      rewrite app_nil_r. repeat split. now left.
    + destruct H as [<- | []].
      split; [apply in_or_app; right; now left|].
      exists (done ++ [chunk]), todo. cbn [rec_path rec_content rec_tokens fst snd].
      rewrite <- app_assoc. repeat split; [exact Hchunks|]. now right.
  - intros H. apply records_whole_in in H. destruct H as (q & Hq & _ & ->).
    split; [exact Hq|].
    exists (file_chunks fs chunk_size q), []. cbn [rec_path rec_content rec_tokens fst snd].
    rewrite app_nil_r. repeat split. now left.
Qed.

End Format.

Arguments block_of rel content : simpl never.

(** A directory with the single file [a.txt] holding [hello]. *)
Definition hello_fs : filesystem :=
  fs_of [RegFile (py "a.txt")] (fun _ => bytes_of "hello").

(** C6.  [get_context] turns every record that [iter_files] yields with
    the default chunk size and token limit into a block: a header line
    naming the file's path relative to the scan root, then the content
    accumulated for the file, then a line break; the blocks are joined
    with three consecutive line breaks.  For a directory whose single
    file [a.txt] holds [hello] the result is the header for the relative
    path [a.txt] followed by [hello]. *)
Theorem get_context_format :
  forall (Pattern : Type) (re_search : Pattern -> pystr -> bool)
         (encode : pystr -> list nat) (self : ContextProvider Pattern)
         (fs : filesystem),
    (exists blocks,
        get_context re_search encode self fs
        = inr (join [0x0A; 0x0A; 0x0A]%N blocks) /\
        Forall2 (fun r block =>
                   exists rel,
                     relative_to (rec_path r) (directory self) = Some rel /\
                     block = py "// File '" ++ str rel ++ py "'" ++ nl
                                ++ rec_content r ++ nl)
          (records (fst (iter_files re_search encode self fs None
                           default_chunk_size default_token_limit)))
          blocks) /\
    (tree_at fs (directory self) = [RegFile (py "a.txt")] ->
     _file_matches re_search self (child (directory self) (py "a.txt")) = true ->
     bytes_at fs (child (directory self) (py "a.txt")) = bytes_of "hello" ->
     encode (py "hello") <> [] ->
     get_context re_search encode self fs
     = inr (py "// File 'a.txt'" ++ nl ++ py "hello" ++ nl)).
Proof.
  intros Pattern re_search encode self fs. split.
  - unfold get_context, iter_files.
    pose proof (iter_files_loop_no_error encode self fs default_chunk_size
                  default_token_limit (iter_file_paths re_search self fs None) 0)
      as [_ Hout].
    pose proof (fun r => iter_files_loop_records encode self fs default_chunk_size
                           default_token_limit
                           (iter_file_paths re_search self fs None) 0 r) as Hrec.
    destruct (iter_files_loop encode self fs default_chunk_size default_token_limit
                (iter_file_paths re_search self fs None) 0) as [evs out].
    cbn [fst snd] in *. subst out.
    destruct (format_records_below self (records evs)) as (blocks & Hfmt & Hall).
    { apply Forall_forall. intros r Hr. destruct (Hrec r Hr) as [Hpath _].
      unfold iter_file_paths in Hpath. apply walk_below in Hpath.
      destruct Hpath as (suffix & _ & ->).
      exists (mkPath false suffix). apply relative_to_below. }
    exists blocks. rewrite Hfmt. split; [reflexivity | exact Hall].
  - intros Htree Hmatch Hbytes Htokens.
    assert (Htext : file_text fs (child (directory self) (py "a.txt")) = py "hello")
      by (unfold file_text; rewrite Hbytes; reflexivity).
    assert (Hpos : 0 < count_tokens encode (py "hello")).
    { unfold count_tokens. destruct (encode (py "hello")); [congruence|].
      simpl. lia. }
    assert (Hrel : relative_to (child (directory self) (py "a.txt")) (directory self)
                   = Some (mkPath false [py "a.txt"]))
      by apply relative_to_below.
    unfold get_context, iter_files, iter_file_paths.
    cbn [top_or_directory]. rewrite Htree.
    cbn [walk flat_map visit]. rewrite Hmatch. cbn [app].
    rewrite iter_files_loop_cons. unfold file_chunks. rewrite Htext.
    change (read_chunks default_chunk_size (py "hello")) with [py "hello"].
    cbn [read_loop]. change (strip (py "hello")) with (py "hello").
    cbn [app]. rewrite !Z.add_0_l.
    destruct (default_token_limit <? count_tokens encode (py "hello")).
    + cbn [records flat_map app format_records].
      unfold format_record. cbn [rec_path rec_content fst snd]. rewrite Hrel.
      reflexivity.
    + apply Z.ltb_lt in Hpos. rewrite Hpos.
      cbn [fst snd iter_files_loop app records flat_map format_records].
      unfold format_record. cbn [rec_path rec_content fst snd]. rewrite Hrel.
      reflexivity.
Qed.

Lemma get_context_format_witness :
  tree_at hello_fs (directory default_provider) = [RegFile (py "a.txt")] /\
  _file_matches find_sub default_provider
    (child (directory default_provider) (py "a.txt")) = true /\
  bytes_at hello_fs (child (directory default_provider) (py "a.txt"))
  = bytes_of "hello" /\
  char_encode (py "hello") <> [] /\
  get_context find_sub char_encode default_provider hello_fs
  = inr (py "// File 'a.txt'" ++ nl ++ py "hello" ++ nl).
Proof.
  split; [reflexivity|]. split; [reflexivity|]. split; [reflexivity|].
  split; [discriminate|].
  apply (proj2 (get_context_format pystr find_sub char_encode default_provider
                  hello_fs)).
  - reflexivity.
  - reflexivity.
  - reflexivity.
  - discriminate.
Defined.

(** ** The [skip_empty] flag *)

Section SkipEmpty.

Context {Pattern : Type}.
Variable re_search : Pattern -> pystr -> bool.
Variable encode : pystr -> list nat.
Variable self : ContextProvider Pattern.
Variable b : bool.

Lemma visit_skip_empty e :
  forall top,
    visit re_search (with_skip_empty b self) top e = visit re_search self top e.
Proof.
  induction e as [n | n children IH | n] using entry_ind; intros top.
  - reflexivity.
  - cbn [visit with_skip_empty recursive allow_hidden_subdirectories].
    destruct (recursive self); [|reflexivity].
    destruct (allow_hidden_subdirectories self
              || negb (startswith (name (child top n)) (py "."))); [|reflexivity].
    induction IH as [|e' l He' _ IHl]; [reflexivity|].
    cbn [flat_map]. now rewrite He', IHl.
  - reflexivity.
Qed.

Lemma iter_file_paths_skip_empty fs top :
  iter_file_paths re_search (with_skip_empty b self) fs top
  = iter_file_paths re_search self fs top.
Proof.
  unfold iter_file_paths, walk.
  replace (top_or_directory (with_skip_empty b self) top)
    with (top_or_directory self top) by (now destruct top).
  induction (tree_at fs (top_or_directory self top)) as [|e l IH]; [reflexivity|].
  cbn [flat_map]. now rewrite visit_skip_empty, IH.
Qed.

(** The check [if self.skip_empty and not file_content: continue] is the
    last statement of the loop body: both of its branches go on with the
    next path. *)
Lemma iter_files_loop_skip_empty fs chunk_size token_limit paths :
  forall total,
    iter_files_loop encode (with_skip_empty b self) fs chunk_size token_limit
      paths total
    = iter_files_loop encode self fs chunk_size token_limit paths total.
Proof.
  induction paths as [|p ps IH]; intros total; [reflexivity|].
  rewrite !iter_files_loop_cons.
  destruct (read_loop encode token_limit (file_chunks fs chunk_size p) [] 0 total)
    as [total' content | content ft total']; [reflexivity|].
  now rewrite IH.
Qed.

End SkipEmpty.

(** C9.  The [skip_empty] flag has no observable effect: whatever the
    directory, the chunk size, the token limit and the other options,
    [iter_file_paths], [iter_files], [calculate_tokens] and [get_context]
    give the same result with the flag set as with the flag cleared. *)
Theorem skip_empty_no_effect :
  forall (Pattern : Type) (re_search : Pattern -> pystr -> bool)
         (encode : pystr -> list nat) (self : ContextProvider Pattern)
         (fs : filesystem) (top : option Path) (chunk_size token_limit : Z),
    iter_file_paths re_search (with_skip_empty true self) fs top
    = iter_file_paths re_search (with_skip_empty false self) fs top /\
    iter_files re_search encode (with_skip_empty true self) fs top
      chunk_size token_limit
    = iter_files re_search encode (with_skip_empty false self) fs top
        chunk_size token_limit /\
    calculate_tokens re_search encode (with_skip_empty true self) fs top
    = calculate_tokens re_search encode (with_skip_empty false self) fs top /\
    get_context re_search encode (with_skip_empty true self) fs
    = get_context re_search encode (with_skip_empty false self) fs.
Proof.
  intros Pattern re_search encode self fs top chunk_size token_limit.
  assert (Hpaths : forall t,
             iter_file_paths re_search (with_skip_empty true self) fs t
             = iter_file_paths re_search (with_skip_empty false self) fs t)
    by (intros t; now rewrite !iter_file_paths_skip_empty).
  assert (Hfiles : forall t cs lim,
             iter_files re_search encode (with_skip_empty true self) fs t cs lim
             = iter_files re_search encode (with_skip_empty false self) fs t cs lim).
  { intros t cs lim. unfold iter_files.
    now rewrite !iter_files_loop_skip_empty, Hpaths. }
  split; [apply Hpaths|]. split; [apply Hfiles|]. split.
  - unfold calculate_tokens. now rewrite Hfiles.
  - unfold get_context. rewrite Hfiles.
    destruct (iter_files re_search encode (with_skip_empty false self) fs None
                default_chunk_size default_token_limit) as [evs out].
    assert (Hfmt : forall rs,
               format_records (with_skip_empty true self) rs
               = format_records (with_skip_empty false self) rs).
    { induction rs as [|r rs IH]; [reflexivity|].
      cbn [format_records]. now rewrite IH. }
    now rewrite Hfmt.
Qed.

(** ** Chunks and stripped white space *)

(** One file whose text has a space right where a chunk of 3 characters
    ends. *)
Definition spaced_fs : filesystem :=
  fs_of [RegFile (py "a.txt")] (fun _ => bytes_of "ab cd").

(** C10.  The content [iter_files] yields for a file is the concatenation
    of the chunks read from it, each with its leading and trailing white
    space stripped (all chunks of the file, or those read when the scan
    stopped over budget).  So the content can differ from the text of the
    file: the text ["ab cd"] read in chunks of 3 characters gives
    ["abcd"]; and two calls that differ only in the chunk size can yield
    different content and different token counts for the same file: in
    chunks of 1024 the same file gives ["ab cd"], with 5 tokens instead of
    4 when every character is a token. *)
Theorem yielded_content_is_stripped_chunks :
  (forall (Pattern : Type) (re_search : Pattern -> pystr -> bool)
          (encode : pystr -> list nat) (self : ContextProvider Pattern)
          (fs : filesystem) (top : option Path) (chunk_size token_limit : Z)
          (r : FileRecord),
      In r (records (fst (iter_files re_search encode self fs top
                            chunk_size token_limit))) ->
      exists done todo,
        read_chunks chunk_size (file_text fs (rec_path r)) = done ++ todo /\
        rec_content r = List.concat (map strip done) /\
        (todo = [] \/ token_limit < rec_tokens r)) /\
  file_text spaced_fs a_txt = py "ab cd" /\
  iter_files find_sub char_encode default_provider spaced_fs None 3
    default_token_limit
  = ([Opened a_txt; Yielded (4, a_txt, py "abcd")], Returned) /\
  iter_files find_sub char_encode default_provider spaced_fs None 1024
    default_token_limit
  = ([Opened a_txt; Yielded (5, a_txt, py "ab cd")], Returned).
Proof.
  split; [|repeat split].
  intros Pattern re_search encode self fs top chunk_size token_limit r Hr.
  unfold iter_files in Hr. apply iter_files_loop_records in Hr.
  destruct Hr as (_ & done & todo & Hchunks & Hcontent & Hlast).
  exists done, todo. repeat split; [exact Hchunks | exact Hcontent |].
  destruct Hlast as [[Htodo _] | Hover]; [now left | now right].
Qed.

Lemma yielded_content_is_stripped_chunks_witness :
  In (4, a_txt, py "abcd")
     (records (fst (iter_files find_sub char_encode default_provider spaced_fs
                      None 3 default_token_limit))) /\
  exists done todo,
    read_chunks 3 (file_text spaced_fs a_txt) = done ++ todo /\
    py "abcd" = List.concat (map strip done) /\
    (todo = [] \/ default_token_limit < 4).
Proof.
  split; [now left|].
  apply (proj1 yielded_content_is_stripped_chunks pystr find_sub char_encode
           default_provider spaced_fs None 3 default_token_limit
           (4, a_txt, py "abcd")).
  now left.
Defined.

(** ** Files that are not valid UTF-8 *)

(** A directory with one binary file: the byte [0xFF], which no UTF-8
    text contains, followed by the letter A. *)
Definition binary_fs : filesystem :=
  fs_of [RegFile (py "data.bin")] (fun _ => [xff; x41]).

Definition data_bin : Path := child project (py "data.bin").

(** C3 on the code.  A file that is not valid UTF-8 does not make the
    reader fail: the file is opened with [errors='ignore'], the offending
    bytes are dropped and the rest is read.  For the binary file above,
    whether [skip_unreadable] is set or not, the scan yields the record
    with content ["A"]; and in every run nothing is logged and no
    exception is raised, so the handler for [UnicodeDecodeError] and the
    [skip_unreadable] option never come into play. *)
Theorem iter_files_reads_undecodable_file :
  (forall skip : bool,
      iter_files find_sub char_encode
        (with_skip_unreadable skip default_provider) binary_fs None
        default_chunk_size default_token_limit
      = ([Opened data_bin; Yielded (1, data_bin, py "A")], Returned)) /\
  (forall (Pattern : Type) (re_search : Pattern -> pystr -> bool)
          (encode : pystr -> list nat) (self : ContextProvider Pattern)
          (fs : filesystem) (top : option Path) (chunk_size token_limit : Z),
      logged (fst (iter_files re_search encode self fs top chunk_size token_limit))
      = [] /\
      snd (iter_files re_search encode self fs top chunk_size token_limit)
      = Returned).
Proof.
  split.
  - intros [|]; reflexivity.
  - intros. apply iter_files_loop_no_error.
Qed.

(** * Further properties of the provider *)

(** ** The constructor *)

(** A pattern argument that names no pattern: [None] or the empty string. *)
Definition empty_or_unset (regex : option pystr) : Prop :=
  regex = None \/ regex = Some [].

(** A pattern argument that [re.compile] is asked to compile and rejects. *)
Definition rejected {Pattern : Type} (re_compile : pystr -> option Pattern)
    (regex : option pystr) : Prop :=
  exists s, regex = Some s /\ s <> [] /\ re_compile s = None.

(** The configuration with every pattern removed. *)
Definition without_patterns {Pattern} (self : ContextProvider Pattern)
  : ContextProvider Pattern :=
  mkProvider (directory self) None None (allow_hidden self) (recursive self)
    (allow_hidden_subdirectories self) None None
    (skip_unreadable self) (skip_empty self).

Lemma compile_if_set_cases (Pattern : Type) (re_compile : pystr -> option Pattern)
    (regex : option pystr) :
  (rejected re_compile regex /\ compile_if_set re_compile regex = inl ReError) \/
  (~ rejected re_compile regex /\
   exists compiled, compile_if_set re_compile regex = inr compiled /\
                    (empty_or_unset regex -> compiled = None)).
Proof.
  destruct regex as [[|c s]|].
  - right. split.
    + intros (s & Hs & Hne & _). inversion Hs; subst. congruence.
    + exists None. split; [reflexivity | reflexivity].
  - cbn [compile_if_set truthy].
    destruct (re_compile (c :: s)) as [p|] eqn:Hc.
    + right. split.
      * intros (s' & Hs & _ & Hrej). inversion Hs; subst. congruence.
      * exists (Some p). split; [reflexivity|].
        intros [H|H]; discriminate.
    + left. split; [|reflexivity].
      exists (c :: s). repeat split; [discriminate | exact Hc].
  - right. split.
    + intros (s & Hs & _). discriminate.
    + exists None. split; reflexivity.
Qed.

(** X1.  A pattern given as the empty string is no pattern at all: when
    each of the four pattern arguments is [None] or empty, the
    constructor succeeds whatever [re.compile] would do, no filter is
    set, and a path passes the filter exactly when hidden files are
    allowed or its name does not start with a dot.  In particular an
    empty blacklist excludes nothing, although the empty regular
    expression is found in every string. *)
Theorem init_empty_patterns :
  forall (Pattern : Type) (re_compile : pystr -> option Pattern)
         (re_search : Pattern -> pystr -> bool) (dir : Path)
         (whitelist blacklist : option pystr) (hidden rec hidden_dirs : bool)
         (path_whitelist path_blacklist : option pystr) (unreadable empty : bool),
    empty_or_unset whitelist -> empty_or_unset blacklist ->
    empty_or_unset path_whitelist -> empty_or_unset path_blacklist ->
    exists self,
      init re_compile dir whitelist blacklist hidden rec hidden_dirs
        path_whitelist path_blacklist unreadable empty = inr self /\
      no_filters self /\
      forall path,
        _file_matches re_search self path
        = hidden || negb (startswith (name path) (py ".")).
Proof.
  intros Pattern re_compile re_search dir wl bl hidden rec hidden_dirs pwl pbl
         unreadable empty Hwl Hbl Hpwl Hpbl.
  exists (mkProvider dir None None hidden rec hidden_dirs None None unreadable empty).
  split.
  - destruct Hwl as [-> | ->], Hbl as [-> | ->], Hpwl as [-> | ->],
      Hpbl as [-> | ->]; reflexivity.
  - split; [repeat split|].
    intros path. rewrite (file_matches_no_filters re_search) by (repeat split).
    reflexivity.
Qed.

Lemma init_empty_patterns_witness :
  empty_or_unset (Some []) /\ empty_or_unset (Some []) /\
  empty_or_unset None /\ empty_or_unset None /\
  exists self,
    init (fun _ : pystr => @None pystr) project (Some []) (Some []) false true
      false None None true false = inr self /\
    no_filters self /\
    forall path,
      _file_matches find_sub self path
      = false || negb (startswith (name path) (py ".")).
Proof.
  split; [now right|]. split; [now right|]. split; [now left|].
  split; [now left|].
  apply (init_empty_patterns pystr (fun _ => None) find_sub project
           (Some []) (Some []) false true false None None true false).
  - now right.
  - now right.
  - now left.
  - now left.
Defined.

(** X2.  The constructor fails, with the error of [re.compile], exactly
    when one of the four pattern arguments is a non-empty string that
    [re.compile] rejects; otherwise it returns a provider that holds the
    directory and the five flags as they were given. *)
Theorem init_fails_iff_pattern_rejected :
  forall (Pattern : Type) (re_compile : pystr -> option Pattern) (dir : Path)
         (whitelist blacklist : option pystr) (hidden rec hidden_dirs : bool)
         (path_whitelist path_blacklist : option pystr) (unreadable empty : bool),
    let result := init re_compile dir whitelist blacklist hidden rec hidden_dirs
                    path_whitelist path_blacklist unreadable empty in
    (result = inl ReError <->
     rejected re_compile whitelist \/ rejected re_compile blacklist \/
     rejected re_compile path_whitelist \/ rejected re_compile path_blacklist) /\
    (result = inl ReError \/
     exists self,
       result = inr self /\ directory self = dir /\
       allow_hidden self = hidden /\ recursive self = rec /\
       allow_hidden_subdirectories self = hidden_dirs /\
       skip_unreadable self = unreadable /\ skip_empty self = empty).
Proof.
  intros Pattern re_compile dir wl bl hidden rec hidden_dirs pwl pbl
         unreadable empty result.
  subst result. unfold init.
  destruct (compile_if_set_cases Pattern re_compile wl)
    as [[Hwl ->] | [Hwl (cwl & -> & _)]];
    [split; [split; [intros _; now left | reflexivity] | now left]|].
  destruct (compile_if_set_cases Pattern re_compile bl)
    as [[Hbl ->] | [Hbl (cbl & -> & _)]];
    [split; [split; [intros _; right; now left | reflexivity] | now left]|].
  destruct (compile_if_set_cases Pattern re_compile pwl)
    as [[Hpwl ->] | [Hpwl (cpwl & -> & _)]];
    [split; [split; [intros _; right; right; now left | reflexivity] | now left]|].
  destruct (compile_if_set_cases Pattern re_compile pbl)
    as [[Hpbl ->] | [Hpbl (cpbl & -> & _)]];
    [split; [split; [intros _; right; right; now right | reflexivity] | now left]|].
  split.
  - split; [discriminate | tauto].
  - right. eexists. split; [reflexivity|]. repeat split.
Qed.

(** ** More on the walk *)

Lemma filter_flat_map {A B : Type} (f : B -> bool) (g : A -> list B) (l : list A) :
  filter f (flat_map g l) = flat_map (fun x => filter f (g x)) l.
Proof.
  induction l as [|x l IH]; [reflexivity|].
  cbn [flat_map]. now rewrite filter_app, IH.
Qed.

Section WalkMore.

Context {Pattern : Type}.
Variable re_search : Pattern -> pystr -> bool.
Variable self : ContextProvider Pattern.

Lemma visit_filters_unfiltered e :
  forall top,
    visit re_search self top e
    = filter (pattern_rules re_search self)
        (visit re_search (without_patterns self) top e).
Proof.
  induction e as [n | n children IH | n] using entry_ind; intros top.
  - cbn [visit]. rewrite !file_matches_andb.
    cbn [without_patterns allow_hidden pattern_rules regex_whitelist
         regex_blacklist regex_path_whitelist regex_path_blacklist
         unset_or_found unset_or_missing andb].
    rewrite andb_true_r.
    destruct (allow_hidden self || negb (startswith (name (child top n)) (py ".")));
      cbn [andb filter]; [|reflexivity].
    fold (pattern_rules re_search self (child top n)).
    destruct (pattern_rules re_search self (child top n)); reflexivity.
  - cbn [visit without_patterns recursive allow_hidden_subdirectories].
    destruct (recursive self); [|reflexivity].
    destruct (allow_hidden_subdirectories self
              || negb (startswith (name (child top n)) (py "."))); [|reflexivity].
    rewrite filter_flat_map.
    induction IH as [|e' l He' _ IHl]; [reflexivity|].
    cbn [flat_map]. now rewrite He', IHl.
  - reflexivity.
Qed.

Definition not_dot (component : pystr) : Prop :=
  startswith component (py ".") = false.

Lemma visit_no_dot e :
  allow_hidden self = false -> allow_hidden_subdirectories self = false ->
  forall top p,
    In p (visit re_search self top e) ->
    exists suffix,
      suffix <> [] /\ p = mkPath (absolute top) (parts top ++ suffix) /\
      Forall not_dot suffix.
Proof.
  intros Hah Hahs.
  induction e as [n | n children IH | n] using entry_ind; intros top p Hp.
  - cbn [visit] in Hp. rewrite file_matches_andb, name_child, Hah in Hp.
    cbn [orb] in Hp.
    destruct (startswith n (py ".")) eqn:Hn; [contradiction|].
    cbn [negb andb] in Hp.
    destruct (pattern_rules re_search self (child top n)); [|contradiction].
    destruct Hp as [<- | []]. exists [n].
    repeat split; [discriminate|]. constructor; [exact Hn | constructor].
  - cbn [visit] in Hp. rewrite name_child, Hahs in Hp. cbn [orb] in Hp.
    destruct (recursive self); [|contradiction].
    destruct (startswith n (py ".")) eqn:Hn; [contradiction|].
    cbn [negb] in Hp.
    apply in_flat_map in Hp. destruct Hp as (e' & He' & Hp).
    rewrite Forall_forall in IH.
    destruct (IH e' He' (child top n) p Hp) as (suffix & Hne & -> & Hall).
    exists (n :: suffix). repeat split; [discriminate | |].
    + unfold child. simpl. now rewrite <- app_assoc.
    + constructor; assumption.
  - contradiction.
Qed.

End WalkMore.

(** X3.  The patterns only select among the files of the walk made
    without them: [iter_file_paths] yields, in the same order, the paths
    that the provider with all four patterns removed yields and that pass
    the four pattern rules.  A pattern never keeps the walk out of a
    directory. *)
Theorem iter_file_paths_filters_unfiltered_walk :
  forall (Pattern : Type) (re_search : Pattern -> pystr -> bool)
         (self : ContextProvider Pattern) (fs : filesystem) (top : option Path),
    iter_file_paths re_search self fs top
    = filter (pattern_rules re_search self)
        (iter_file_paths re_search (without_patterns self) fs top).
Proof.
  intros Pattern re_search self fs top.
  unfold iter_file_paths, walk.
  replace (top_or_directory (without_patterns self) top)
    with (top_or_directory self top) by (now destruct top).
  rewrite filter_flat_map.
  induction (tree_at fs (top_or_directory self top)) as [|e l IH]; [reflexivity|].
  cbn [flat_map]. now rewrite visit_filters_unfiltered, IH.
Qed.

(** X4.  With [allow_hidden] and [allow_hidden_subdirectories] both off
    (the defaults), no component below the root of a yielded path starts
    with a dot: neither the file's name nor the name of any directory on
    the way to it; and every yielded path lies strictly below the root. *)
Theorem iter_file_paths_no_dot_component :
  forall (Pattern : Type) (re_search : Pattern -> pystr -> bool)
         (self : ContextProvider Pattern) (fs : filesystem) (top : option Path)
         (p : Path),
    allow_hidden self = false ->
    allow_hidden_subdirectories self = false ->
    In p (iter_file_paths re_search self fs top) ->
    exists suffix,
      suffix <> [] /\
      p = mkPath (absolute (top_or_directory self top))
            (parts (top_or_directory self top) ++ suffix) /\
      Forall (fun component => startswith component (py ".") = false) suffix.
Proof.
  intros Pattern re_search self fs top p Hah Hahs Hp.
  unfold iter_file_paths, walk in Hp. apply in_flat_map in Hp.
  destruct Hp as (e & _ & Hp).
  exact (visit_no_dot re_search self e Hah Hahs _ _ Hp).
Qed.

Lemma iter_file_paths_no_dot_component_witness :
  allow_hidden default_provider = false /\
  allow_hidden_subdirectories default_provider = false /\
  In b_py (iter_file_paths find_sub default_provider sample_fs None) /\
  exists suffix,
    suffix <> [] /\
    b_py = mkPath (absolute (top_or_directory default_provider None))
             (parts (top_or_directory default_provider None) ++ suffix) /\
    Forall (fun component => startswith component (py ".") = false) suffix.
Proof.
  split; [reflexivity|]. split; [reflexivity|].
  split; [right; now left|].
  apply (iter_file_paths_no_dot_component pystr find_sub default_provider
           sample_fs None b_py).
  - reflexivity.
  - reflexivity.
  - right. now left.
Defined.

(** X5.  With [recursive] off, whatever patterns are set,
    [iter_file_paths] yields exactly the regular files listed in the root
    itself that pass the filter: nothing from any subdirectory. *)
Theorem iter_file_paths_not_recursive :
  forall (Pattern : Type) (re_search : Pattern -> pystr -> bool)
         (self : ContextProvider Pattern) (fs : filesystem) (top : option Path)
         (p : Path),
    recursive self = false ->
    (In p (iter_file_paths re_search self fs top) <->
     exists n,
       In (RegFile n) (tree_at fs (top_or_directory self top)) /\
       p = child (top_or_directory self top) n /\
       _file_matches re_search self p = true).
Proof.
  intros Pattern re_search self fs top p Hrec.
  unfold iter_file_paths, walk. rewrite in_flat_map. split.
  - intros (e & He & Hp). destruct e as [n | n children | n].
    + cbn [visit] in Hp.
      destruct (_file_matches re_search self (child (top_or_directory self top) n))
        eqn:Hm; [|contradiction].
      destruct Hp as [<- | []]. exists n. repeat split; assumption.
    + cbn [visit] in Hp. rewrite Hrec in Hp. contradiction.
    + contradiction.
  - intros (n & Hn & -> & Hm). exists (RegFile n). split; [exact Hn|].
    cbn [visit]. rewrite Hm. now left.
Qed.

Lemma iter_file_paths_not_recursive_witness :
  recursive (mkProvider project (@None pystr) None false false false None None
               true false) = false /\
  (In a_txt (iter_file_paths find_sub
               (mkProvider project None None false false false None None true false)
               sample_fs None) <->
   exists n,
     In (RegFile n) sample_listing /\
     a_txt = child project n /\
     _file_matches find_sub
       (mkProvider project None None false false false None None true false)
       a_txt = true).
Proof.
  split; [reflexivity|].
  apply (iter_file_paths_not_recursive pystr find_sub
           (mkProvider project None None false false false None None true false)
           sample_fs None a_txt).
  reflexivity.
Defined.

(** ** White space and the yielded content *)

(** The characters of a text that are not white space, in order. *)
Definition ink (s : pystr) : pystr := filter (fun c => negb (is_space c)) s.

(** A text that neither begins nor ends with white space. *)
Definition trimmed (s : pystr) : Prop :=
  (forall c, hd_error s = Some c -> is_space c = false) /\
  (forall c, hd_error (rev s) = Some c -> is_space c = false).

Lemma lstrip_head s c : hd_error (lstrip s) = Some c -> is_space c = false.
Proof.
  induction s as [|d s IH]; [discriminate|].
  cbn [lstrip]. destruct (is_space d) eqn:Hd; [exact IH|].
  cbn [hd_error]. intros H. now inversion H; subst.
Qed.

(** [lstrip] removes a run of white space from the front. *)
Lemma lstrip_split s :
  exists w, s = w ++ lstrip s /\ Forall (fun c => is_space c = true) w.
Proof.
  induction s as [|d s (w & Hs & Hw)].
  - exists []. split; [reflexivity | constructor].
  - cbn [lstrip]. destruct (is_space d) eqn:Hd.
    + exists (d :: w). split; [cbn [app]; now f_equal | now constructor].
    + exists []. split; [reflexivity | constructor].
Qed.

Lemma ink_app a b : ink (a ++ b) = ink a ++ ink b.
Proof. apply filter_app. Qed.

Lemma ink_spaces w : Forall (fun c => is_space c = true) w -> ink w = [].
Proof.
  induction 1 as [|c w Hc _ IH]; [reflexivity|].
  unfold ink in *. cbn [filter]. now rewrite Hc.
Qed.

Lemma ink_rev s : ink (rev s) = rev (ink s).
Proof.
  induction s as [|c s IH]; [reflexivity|].
  cbn [rev]. rewrite ink_app, IH. unfold ink at 2 3. cbn [filter].
  destruct (negb (is_space c)); cbn [rev app]; [reflexivity|].
  now rewrite app_nil_r.
Qed.

Lemma ink_lstrip s : ink (lstrip s) = ink s.
Proof.
  destruct (lstrip_split s) as (w & Hs & Hw).
  rewrite Hs at 2. now rewrite ink_app, (ink_spaces w Hw).
Qed.

(** Stripping removes white space only. *)
Lemma ink_strip s : ink (strip s) = ink s.
Proof.
  unfold strip, rstrip.
  now rewrite ink_rev, ink_lstrip, ink_rev, rev_involutive, ink_lstrip.
Qed.

(** [rstrip] keeps a front part of the text. *)
Lemma rstrip_split s : exists w, s = rstrip s ++ w.
Proof.
  unfold rstrip. destruct (lstrip_split (rev s)) as (w & Hs & _).
  exists (rev w). rewrite <- rev_app_distr, <- Hs. now rewrite rev_involutive.
Qed.

Lemma trimmed_strip s : trimmed (strip s).
Proof.
  split; intros c Hc.
  - unfold strip in Hc. destruct (rstrip_split (lstrip s)) as (w & Hw).
    apply (lstrip_head s). rewrite Hw.
    destruct (rstrip (lstrip s)); [discriminate | exact Hc].
  - unfold strip, rstrip in Hc. rewrite rev_involutive in Hc.
    exact (lstrip_head _ _ Hc).
Qed.

Lemma trimmed_nil : trimmed [].
Proof. split; intros c H; discriminate. Qed.

Lemma trimmed_app a b : trimmed a -> trimmed b -> trimmed (a ++ b).
Proof.
  intros [Ha1 Ha2] [Hb1 Hb2]. split; intros c Hc.
  - destruct a as [|x a]; [now apply Hb1 | now apply Ha1].
  - rewrite rev_app_distr in Hc.
    destruct (rev b) as [|x rb]; [now apply Ha2|].
    apply Hb2. exact Hc.
Qed.

Lemma trimmed_content_of chunks : trimmed (content_of chunks).
Proof.
  unfold content_of.
  induction chunks as [|chunk chunks IH]; [exact trimmed_nil|].
  cbn [map List.concat]. apply trimmed_app; [apply trimmed_strip | exact IH].
Qed.

Lemma ink_content_of chunks : ink (content_of chunks) = ink (List.concat chunks).
Proof.
  unfold content_of.
  induction chunks as [|chunk chunks IH]; [reflexivity|].
  cbn [map List.concat]. now rewrite !ink_app, ink_strip, IH.
Qed.

(** X6.  The content of a yielded record never begins and never ends
    with a white-space character, whatever the chunk size and the limit:
    in particular the line break that ends a text file never reaches the
    content. *)
Theorem yielded_content_is_trimmed :
  forall (Pattern : Type) (re_search : Pattern -> pystr -> bool)
         (encode : pystr -> list nat) (self : ContextProvider Pattern)
         (fs : filesystem) (top : option Path) (chunk_size token_limit : Z)
         (r : FileRecord),
    In r (records (fst (iter_files re_search encode self fs top
                          chunk_size token_limit))) ->
    (forall c, hd_error (rec_content r) = Some c -> is_space c = false) /\
    (forall c, hd_error (rev (rec_content r)) = Some c -> is_space c = false).
Proof.
  intros Pattern re_search encode self fs top chunk_size token_limit r Hr.
  unfold iter_files in Hr. apply iter_files_loop_records in Hr.
  destruct Hr as (_ & done & todo & _ & -> & _).
  apply trimmed_content_of.
Qed.

Lemma yielded_content_is_trimmed_witness :
  In (5, a_txt, py "hello")
     (records (fst (iter_files find_sub char_encode default_provider two_lines_fs
                      None default_chunk_size default_token_limit))) /\
  (forall c, hd_error (py "hello") = Some c -> is_space c = false) /\
  (forall c, hd_error (rev (py "hello")) = Some c -> is_space c = false).
Proof.
  split; [now left|].
  apply (yielded_content_is_trimmed pystr find_sub char_encode default_provider
           two_lines_fs None default_chunk_size default_token_limit
           (5, a_txt, py "hello")).
  now left.
Defined.

(** X7.  Chunking and stripping lose white space only.  For a chunk size
    other than zero, the content of every record whose token count is
    within the limit (every record of a file that was read to the end)
    has exactly the non-white-space characters of the file's text, in the
    same order. *)
Theorem yielded_content_keeps_ink :
  forall (Pattern : Type) (re_search : Pattern -> pystr -> bool)
         (encode : pystr -> list nat) (self : ContextProvider Pattern)
         (fs : filesystem) (top : option Path) (chunk_size token_limit : Z)
         (r : FileRecord),
    chunk_size <> 0 ->
    In r (records (fst (iter_files re_search encode self fs top
                          chunk_size token_limit))) ->
    rec_tokens r <= token_limit ->
    ink (rec_content r) = ink (file_text fs (rec_path r)).
Proof.
  intros Pattern re_search encode self fs top chunk_size token_limit r
         Hsize Hr Hle.
  unfold iter_files in Hr. apply iter_files_loop_records in Hr.
  destruct Hr as (_ & done & todo & Hchunks & -> & [[-> _] | Hover]); [|lia].
  rewrite app_nil_r in Hchunks. rewrite ink_content_of, <- Hchunks.
  unfold file_chunks. now rewrite read_chunks_concat.
Qed.

Lemma yielded_content_keeps_ink_witness :
  3 <> 0 /\
  In (4, a_txt, py "abcd")
     (records (fst (iter_files find_sub char_encode default_provider spaced_fs
                      None 3 default_token_limit))) /\
  4 <= default_token_limit /\
  ink (py "abcd") = ink (file_text spaced_fs a_txt).
Proof.
  split; [discriminate|]. split; [now left|]. split; [discriminate|].
  apply (yielded_content_keeps_ink pystr find_sub char_encode default_provider
           spaced_fs None 3 default_token_limit (4, a_txt, py "abcd")).
  - discriminate.
  - now left.
  - discriminate.
Defined.

(** ** More on the budget *)

(** X8.  With a chunk size of zero nothing is ever read: every file of
    the walk is opened, no record is yielded and the scan returns,
    whatever the token limit (even a negative one) and whatever the files
    hold. *)
Theorem iter_files_chunk_size_zero :
  forall (Pattern : Type) (re_search : Pattern -> pystr -> bool)
         (encode : pystr -> list nat) (self : ContextProvider Pattern)
         (fs : filesystem) (top : option Path) (token_limit : Z),
    iter_files re_search encode self fs top 0 token_limit
    = (map Opened (iter_file_paths re_search self fs top), Returned).
Proof.
  intros Pattern re_search encode self fs top token_limit.
  unfold iter_files. generalize 0 at 2 as total.
  induction (iter_file_paths re_search self fs top) as [|p ps IH]; intros total.
  - reflexivity.
  - rewrite iter_files_loop_cons. unfold file_chunks.
    rewrite read_chunks_zero. cbn [read_loop]. rewrite IH. reflexivity.
Qed.

Section BudgetMore.

Context {Pattern : Type}.
Variable encode : pystr -> list nat.
Variable self : ContextProvider Pattern.
Variable fs : filesystem.
Variables chunk_size token_limit : Z.

Local Abbreviation counts := (file_counts encode fs chunk_size).
Local Abbreviation tokens := (file_tokens encode fs chunk_size).
Local Abbreviation whole := (whole_file encode fs chunk_size).

(** The count a record carries is positive and within the limit. *)
Definition counted_within (limit : Z) (r : FileRecord) : Prop :=
  0 < rec_tokens r <= limit.

Lemma whole_records_within ps :
  forall total,
    0 <= total ->
    within token_limit (running_totals total (flat_map counts ps)) ->
    Forall (counted_within token_limit) (records (flat_map whole ps)).
Proof.
  induction ps as [|p ps IH]; intros total Htotal H; [constructor|].
  cbn [flat_map] in *. rewrite running_totals_app in H.
  apply within_app in H. destruct H as [Hp Hps].
  pose proof (file_tokens_nonneg encode fs chunk_size p) as Hnn.
  rewrite records_app. apply Forall_app. split.
  - unfold whole_file.
    destruct (Z.ltb_spec 0 (tokens p)) as [Hpos|Hzero]; [|constructor].
    constructor; [|constructor].
    unfold counted_within, rec_tokens. cbn [fst].
    assert (Hle := within_total_le token_limit total _ Hp).
    assert (Hc : forall c, In c (counts p) -> 0 <= c).
    { intros c Hc. unfold file_counts, counts_of in Hc. apply in_map_iff in Hc.
      destruct Hc as (x & <- & _). apply count_tokens_nonneg. }
    specialize (Hle Hc). fold (tokens p) in Hle. lia.
  - apply (IH (total + zsum (counts p))); [|exact Hps].
    fold (tokens p). lia.
Qed.

Lemma zsum_flat_counts ps : zsum (flat_map counts ps) = zsum (map tokens ps).
Proof.
  induction ps as [|p ps IH]; [reflexivity|].
  cbn [flat_map map]. rewrite zsum_app, IH. reflexivity.
Qed.

Lemma within_weaken limit limit' totals :
  limit <= limit' -> within limit totals -> within limit' totals.
Proof.
  intros Hle H. eapply Forall_impl; [|exact H]. cbn. intros t Ht. lia.
Qed.

End BudgetMore.

(** X9.  For a chunk size that [file.read] accepts, a consumer can tell
    from the records alone whether the scan was
    cut short.  Either every record carries a count that is positive and
    within the limit (the scan read every file to the end), or this holds
    for all records but the last, the last record carries a count above
    the limit, and yielding it is the last thing the scan did. *)
Theorem record_counts_reveal_truncation :
  forall (Pattern : Type) (re_search : Pattern -> pystr -> bool)
         (encode : pystr -> list nat) (self : ContextProvider Pattern)
         (fs : filesystem) (top : option Path) (chunk_size token_limit : Z),
    read_size_ok chunk_size ->
    let run := iter_files re_search encode self fs top chunk_size token_limit in
    (Forall (fun r => 0 < rec_tokens r <= token_limit) (records (fst run)) /\
     opened (fst run) = iter_file_paths re_search self fs top)
    \/
    (exists before r evs,
        records (fst run) = before ++ [r] /\
        Forall (fun r => 0 < rec_tokens r <= token_limit) before /\
        token_limit < rec_tokens r /\
        fst run = evs ++ [Yielded r]).
Proof.
  intros Pattern re_search encode self fs top chunk_size token_limit _ run.
  subst run. unfold iter_files.
  destruct (iter_files_loop_cases encode self fs chunk_size token_limit
              (iter_file_paths re_search self fs top) 0)
    as [(ps1 & p & ps2 & done & chunk & todo & Hp & Hchunks & Hin & Hover & ->)
       | [Hin ->]]; cbn [fst].
  - right. rewrite running_totals_app in Hin. apply within_app in Hin.
    destruct Hin as [Hps1 _].
    eexists _, _, (flat_map (whole_file encode fs chunk_size) ps1 ++ [Opened p]).
    rewrite records_app. cbn [records flat_map app].
    split; [reflexivity|]. split.
    + exact (whole_records_within encode fs chunk_size token_limit ps1 0
               (Z.le_refl 0) Hps1).
    + split; [exact Hover|]. now rewrite <- app_assoc.
  - left. split.
    + exact (whole_records_within encode fs chunk_size token_limit _ 0
               (Z.le_refl 0) Hin).
    + apply opened_whole.
Qed.

Lemma record_counts_reveal_truncation_witness :
  read_size_ok 2 /\
  ((Forall (fun r => 0 < rec_tokens r <= 6)
      (records (fst (iter_files find_sub char_encode default_provider sample_fs
                       None 2 6))) /\
    opened (fst (iter_files find_sub char_encode default_provider sample_fs
                   None 2 6))
    = iter_file_paths find_sub default_provider sample_fs None)
   \/
   (exists before r evs,
       records (fst (iter_files find_sub char_encode default_provider sample_fs
                       None 2 6)) = before ++ [r] /\
       Forall (fun r => 0 < rec_tokens r <= 6) before /\
       6 < rec_tokens r /\
       fst (iter_files find_sub char_encode default_provider sample_fs None 2 6)
       = evs ++ [Yielded r])).
Proof.
  split; [unfold read_size_ok; lia|].
  apply (record_counts_reveal_truncation pystr find_sub char_encode
           default_provider sample_fs None 2 6).
  unfold read_size_ok. lia.
Defined.

(** X10.  Once the limit is large enough for the scan to read every file
    to the end, the result no longer depends on it: with any larger
    limit [iter_files] does exactly the same. *)
Theorem iter_files_limit_irrelevant_when_complete :
  forall (Pattern : Type) (re_search : Pattern -> pystr -> bool)
         (encode : pystr -> list nat) (self : ContextProvider Pattern)
         (fs : filesystem) (top : option Path) (chunk_size limit limit' : Z),
    within limit
      (running_totals 0
         (flat_map (file_counts encode fs chunk_size)
            (iter_file_paths re_search self fs top))) ->
    limit <= limit' ->
    iter_files re_search encode self fs top chunk_size limit'
    = iter_files re_search encode self fs top chunk_size limit.
Proof.
  intros Pattern re_search encode self fs top chunk_size limit limit' Hin Hle.
  unfold iter_files.
  pose proof (iter_files_loop_prefix encode self fs chunk_size limit
                (iter_file_paths re_search self fs top) [] 0 Hin) as H1.
  pose proof (iter_files_loop_prefix encode self fs chunk_size limit'
                (iter_file_paths re_search self fs top) [] 0
                (within_weaken limit limit' _ Hle Hin)) as H2.
  rewrite app_nil_r in H1, H2. now rewrite H1, H2.
Qed.

Lemma iter_files_limit_irrelevant_when_complete_witness :
  within 10
    (running_totals 0
       (flat_map (file_counts char_encode two_lines_fs default_chunk_size)
          (iter_file_paths find_sub default_provider two_lines_fs None))) /\
  10 <= default_token_limit /\
  iter_files find_sub char_encode default_provider two_lines_fs None
    default_chunk_size default_token_limit
  = iter_files find_sub char_encode default_provider two_lines_fs None
      default_chunk_size 10.
Proof.
  split; [vm_compute; repeat constructor; discriminate|].
  split; [discriminate|].
  apply (iter_files_limit_irrelevant_when_complete pystr find_sub char_encode
           default_provider two_lines_fs None default_chunk_size 10
           default_token_limit).
  - vm_compute. repeat constructor; discriminate.
  - discriminate.
Defined.

(** X11.  For a chunk size that [file.read] accepts, files are opened
    in the order of the walk and none is passed
    over: the files opened are a front part of the walk, every record is
    about a file that was opened, and files are left unopened only after
    a record above the limit has been yielded as the last step. *)
Theorem opened_files_are_a_prefix_of_the_walk :
  forall (Pattern : Type) (re_search : Pattern -> pystr -> bool)
         (encode : pystr -> list nat) (self : ContextProvider Pattern)
         (fs : filesystem) (top : option Path) (chunk_size token_limit : Z),
    read_size_ok chunk_size ->
    let run := iter_files re_search encode self fs top chunk_size token_limit in
    exists unopened,
      iter_file_paths re_search self fs top = opened (fst run) ++ unopened /\
      Forall (fun r => In (rec_path r) (opened (fst run))) (records (fst run)) /\
      (unopened = [] \/
       exists evs r, fst run = evs ++ [Yielded r] /\ token_limit < rec_tokens r).
Proof.
  intros Pattern re_search encode self fs top chunk_size token_limit _ run.
  subst run. unfold iter_files.
  destruct (iter_files_loop_cases encode self fs chunk_size token_limit
              (iter_file_paths re_search self fs top) 0)
    as [(ps1 & p & ps2 & done & chunk & todo & Hp & Hchunks & Hin & Hover & ->)
       | [Hin ->]]; cbn [fst].
  - exists ps2. rewrite opened_app, opened_whole. cbn [opened flat_map app].
    split; [now rewrite Hp, <- app_assoc|]. split.
    + rewrite records_app. apply Forall_app. split.
      * apply Forall_forall. intros r Hr. apply records_whole_in in Hr.
        destruct Hr as (q & Hq & _ & ->). cbn [rec_path fst snd].
        apply in_or_app. now left.
      * constructor; [|constructor]. cbn [rec_path fst snd].
        apply in_or_app. right. now left.
    + right.
      exists (flat_map (whole_file encode fs chunk_size) ps1 ++ [Opened p]).
      eexists. split; [now rewrite <- app_assoc | exact Hover].
  - exists []. rewrite opened_whole, app_nil_r.
    split; [reflexivity|]. split; [|now left].
    apply Forall_forall. intros r Hr. apply records_whole_in in Hr.
    destruct Hr as (q & Hq & _ & ->). exact Hq.
Qed.

Lemma opened_files_are_a_prefix_of_the_walk_witness :
  read_size_ok 2 /\
  exists unopened,
    iter_file_paths find_sub default_provider sample_fs None
    = opened (fst (iter_files find_sub char_encode default_provider sample_fs
                     None 2 6)) ++ unopened /\
    Forall (fun r =>
              In (rec_path r)
                 (opened (fst (iter_files find_sub char_encode default_provider
                                 sample_fs None 2 6))))
      (records (fst (iter_files find_sub char_encode default_provider sample_fs
                       None 2 6))) /\
    (unopened = [] \/
     exists evs r,
       fst (iter_files find_sub char_encode default_provider sample_fs None 2 6)
       = evs ++ [Yielded r] /\ 6 < rec_tokens r).
Proof.
  split; [unfold read_size_ok; lia|].
  apply (opened_files_are_a_prefix_of_the_walk pystr find_sub char_encode
           default_provider sample_fs None 2 6).
  unfold read_size_ok. lia.
Defined.

(** ** [calculate_tokens] over budget *)

(** A small file followed by a file of 10000 letters. *)
Definition big_fs : filesystem :=
  fs_of [RegFile (py "a.txt"); RegFile (py "big.txt")]
        (fun n => if pystr_eqb n (py "a.txt") then bytes_of "hello"
                  else repeat x61 (Z.to_nat 10000)).

Definition big_txt : Path := child project (py "big.txt").

(** X12.  When the scan stops over budget, [calculate_tokens] counts the
    files read before twice: the record that ends the scan carries the
    running total, which already includes them, and their own records are
    added as well.  The result is the running total at the stop, itself
    above the limit, plus the tokens of the earlier files. *)
Theorem calculate_tokens_over_budget :
  forall (Pattern : Type) (re_search : Pattern -> pystr -> bool)
         (encode : pystr -> list nat) (self : ContextProvider Pattern)
         (fs : filesystem) (top : option Path)
         (ps1 : list Path) (p : Path) (ps2 : list Path)
         (done : list pystr) (chunk : pystr) (todo : list pystr),
    iter_file_paths re_search self fs top = ps1 ++ p :: ps2 ->
    file_chunks fs default_chunk_size p = done ++ chunk :: todo ->
    let earlier := zsum (map (file_tokens encode fs default_chunk_size) ps1) in
    let running_total := earlier + zsum (counts_of encode (done ++ [chunk])) in
    within default_token_limit
      (running_totals 0
         (flat_map (file_counts encode fs default_chunk_size) ps1
            ++ counts_of encode done)) ->
    default_token_limit < running_total ->
    calculate_tokens re_search encode self fs top
    = inr (earlier + running_total).
Proof.
  intros Pattern re_search encode self fs top ps1 p ps2 done chunk todo
         Hpaths Hchunks earlier running_total Hin Hover.
  subst earlier running_total.
  rewrite <- zsum_flat_counts in *.
  rewrite running_totals_app in Hin. apply within_app in Hin.
  destruct Hin as [Hps1 Hdone]. rewrite Z.add_0_l in Hdone.
  unfold calculate_tokens, iter_files. rewrite Hpaths.
  rewrite (iter_files_loop_prefix encode self fs default_chunk_size
             default_token_limit ps1 (p :: ps2) 0 Hps1).
  rewrite Z.add_0_l.
  rewrite (iter_files_loop_exceeds encode self fs default_chunk_size
             default_token_limit p ps2 _ done chunk todo Hchunks Hdone Hover).
  cbn [fst snd]. rewrite records_app, sum_tokens_app, sum_tokens_whole.
  f_equal. unfold sum_tokens, records, rec_tokens. cbn [flat_map app map fst fold_right].
  lia.
Qed.

Lemma calculate_tokens_over_budget_witness :
  iter_file_paths find_sub default_provider big_fs None
  = [a_txt] ++ big_txt :: [] /\
  file_chunks big_fs default_chunk_size big_txt
  = repeat (repeat 97%N 1024) 9 ++ repeat 97%N 784 :: [] /\
  within default_token_limit
    (running_totals 0
       (flat_map (file_counts char_encode big_fs default_chunk_size) [a_txt]
          ++ counts_of char_encode (repeat (repeat 97%N 1024) 9))) /\
  default_token_limit
  < zsum (map (file_tokens char_encode big_fs default_chunk_size) [a_txt])
    + zsum (counts_of char_encode
              (repeat (repeat 97%N 1024) 9 ++ [repeat 97%N 784])) /\
  calculate_tokens find_sub char_encode default_provider big_fs None
  = inr (zsum (map (file_tokens char_encode big_fs default_chunk_size) [a_txt])
         + (zsum (map (file_tokens char_encode big_fs default_chunk_size) [a_txt])
            + zsum (counts_of char_encode
                      (repeat (repeat 97%N 1024) 9 ++ [repeat 97%N 784])))).
Proof.
  split; [reflexivity|].
  split; [vm_compute; reflexivity|].
  split; [vm_compute; repeat constructor; discriminate|].
  split; [vm_compute; reflexivity|].
  apply (calculate_tokens_over_budget pystr find_sub char_encode default_provider
           big_fs None [a_txt] big_txt [] (repeat (repeat 97%N 1024) 9)
           (repeat 97%N 784) []).
  - reflexivity.
  - vm_compute. reflexivity.
  - vm_compute. repeat constructor; discriminate.
  - vm_compute. reflexivity.
Defined.

(** On that directory the tokens actually read are 10005, and
    [calculate_tokens] returns 10010. *)
Example calculate_tokens_big :
  calculate_tokens find_sub char_encode default_provider big_fs None = inr 10010.
Proof. vm_compute. reflexivity. Qed.




(** ** The walk does not depend on where the root is *)

Section Rebase.

Context {Pattern : Type}.
Variable re_search : Pattern -> pystr -> bool.
Variable self : ContextProvider Pattern.
Hypothesis Hpwl : regex_path_whitelist self = None.
Hypothesis Hpbl : regex_path_blacklist self = None.

(** The components of [p] after the first [k]. *)
Definition below (k : nat) (p : Path) : list pystr := skipn k (parts p).

Lemma below_child k top n :
  (k <= List.length (parts top))%nat ->
  below k (child top n) = below k top ++ [n].
Proof.
  intros Hk. unfold below, child. cbn [parts]. rewrite skipn_app.
  replace (k - List.length (parts top))%nat with 0%nat by lia.
  reflexivity.
Qed.

Lemma file_matches_name_only top top' n :
  _file_matches re_search self (child top n)
  = _file_matches re_search self (child top' n).
Proof.
  rewrite !file_matches_andb. unfold pattern_rules.
  now rewrite Hpwl, Hpbl, !name_child.
Qed.

Lemma visit_rebase e :
  forall top top' k k',
    (k <= List.length (parts top))%nat ->
    (k' <= List.length (parts top'))%nat ->
    below k top = below k' top' ->
    map (below k) (visit re_search self top e)
    = map (below k') (visit re_search self top' e).
Proof.
  induction e as [n | n children IH | n] using entry_ind;
    intros top top' k k' Hk Hk' Hsame.
  - cbn [visit]. rewrite (file_matches_name_only top top' n).
    destruct (_file_matches re_search self (child top' n)); [|reflexivity].
    cbn [map]. now rewrite !below_child, Hsame by assumption.
  - cbn [visit]. rewrite !name_child.
    destruct (recursive self); [|reflexivity].
    destruct (allow_hidden_subdirectories self || negb (startswith n (py ".")));
      [|reflexivity].
    assert (Hc : below k (child top n) = below k' (child top' n))
      by (now rewrite !below_child, Hsame by assumption).
    assert (Hl : (k <= List.length (parts (child top n)))%nat)
      by (unfold child; cbn [parts]; rewrite length_app; lia).
    assert (Hl' : (k' <= List.length (parts (child top' n)))%nat)
      by (unfold child; cbn [parts]; rewrite length_app; lia).
    induction IH as [|e' l He' _ IHl]; [reflexivity|].
    cbn [flat_map]. rewrite !map_app.
    now rewrite (He' (child top n) (child top' n) k k' Hl Hl' Hc), IHl.
  - reflexivity.
Qed.

End Rebase.

(** X14.  When no path pattern is set, what the walk yields does not
    depend on where the root is: the same listing under two roots gives
    the same paths relative to the root, in the same order.  The name of
    the root itself is never examined, so the files of a root whose own
    name starts with a dot are yielded like any others. *)
Theorem walk_is_relative_to_the_root :
  forall (Pattern : Type) (re_search : Pattern -> pystr -> bool)
         (self : ContextProvider Pattern) (top top' : Path)
         (listing : list entry),
    regex_path_whitelist self = None ->
    regex_path_blacklist self = None ->
    map (fun p => skipn (List.length (parts top)) (parts p))
      (walk re_search self top listing)
    = map (fun p => skipn (List.length (parts top')) (parts p))
        (walk re_search self top' listing).
Proof.
  intros Pattern re_search self top top' listing Hpwl Hpbl.
  unfold walk.
  induction listing as [|e l IH]; [reflexivity|].
  cbn [flat_map]. rewrite !map_app, IH. f_equal.
  apply (visit_rebase re_search self Hpwl Hpbl e top top'); try lia.
  unfold below. now rewrite !skipn_all.
Qed.

Lemma walk_is_relative_to_the_root_witness :
  regex_path_whitelist default_provider = None /\
  regex_path_blacklist default_provider = None /\
  map (fun p => skipn (List.length (parts project)) (parts p))
    (walk find_sub default_provider project sample_listing)
  = map (fun p => skipn (List.length (parts (child project (py ".cache"))))
                    (parts p))
      (walk find_sub default_provider (child project (py ".cache"))
         sample_listing).
Proof.
  split; [reflexivity|]. split; [reflexivity|].
  apply (walk_is_relative_to_the_root pystr find_sub default_provider project
           (child project (py ".cache")) sample_listing).
  - reflexivity.
  - reflexivity.
Defined.
